(** * Recipients truncation: a shallow embedding of the two hooks

    [useTextMeasurement] (the measurement service) and
    [useRecipientsCalculation] (the fitting engine) are embedded as Rocq
    functions, and the properties stated about them are proved.

    - JavaScript strings are sequences of UTF-16 code units ([list N]);
      [.length] is the number of code units.
    - JavaScript numbers are the finite values (as rationals, on which
      the comparisons of doubles are exact), the two infinities and NaN.
    - A call that may throw returns a [completion].
    - The React state of the hook is a record; one evaluation of
      [computeVisibleRecipients] produces the next state. *)

From Stdlib Require Import List Bool Arith ZArith NArith QArith Lia.
From Stdlib Require Import String Ascii.
Import ListNotations.

Local Open Scope list_scope.

(* ===================================================================== *)
(** ** JavaScript strings *)
(* ===================================================================== *)

Module JsString.

(** A string is the sequence of its UTF-16 code units. *)
Definition code_unit := N.
Definition jsstring := list code_unit.

(** A Rocq string literal read as a JavaScript string (one code unit per
    character; used for the ASCII literals of the source). *)
Definition lit (s : string) : jsstring :=
  List.map N_of_ascii (list_ascii_of_string s).

Definition comma : code_unit := 44%N.
Definition at_sign : code_unit := 64%N.
Definition dot : code_unit := 46%N.
Definition space : code_unit := 32%N.

(** [s.length] *)
Definition str_length (s : jsstring) : Z := Z.of_nat (List.length s).

(** WhiteSpace and LineTerminator code points of ECMAScript: the set
    removed by [String.prototype.trim] and matched by [\s]. *)
Definition is_whitespace (c : code_unit) : bool :=
  ((9 <=? c) && (c <=? 13) || (c =? 32) || (c =? 160) || (c =? 5760)
   || (8192 <=? c) && (c <=? 8202) || (c =? 8232) || (c =? 8233)
   || (c =? 8239) || (c =? 8287) || (c =? 12288) || (c =? 65279))%N.

Fixpoint drop_while (p : code_unit -> bool) (s : jsstring) : jsstring :=
  match s with
  | [] => []
  | c :: s' => if p c then drop_while p s' else s
  end.

Definition trimStart (s : jsstring) : jsstring := drop_while is_whitespace s.
Definition trimEnd (s : jsstring) : jsstring :=
  rev (drop_while is_whitespace (rev s)).

(** [s.trim()] *)
Definition trim (s : jsstring) : jsstring := trimEnd (trimStart s).

(** [s.split(sep)] for a separator of one code unit: the pieces between
    the occurrences of [sep]; the empty string gives one empty piece. *)
Fixpoint split (sep : code_unit) (s : jsstring) : list jsstring :=
  match s with
  | [] => [[]]
  | c :: s' =>
      if (c =? sep)%N then [] :: split sep s'
      else match split sep s' with
           | [] => [[c]]
           | piece :: pieces => (c :: piece) :: pieces
           end
  end.

(** [arr.join(sep)] *)
Fixpoint join (sep : jsstring) (arr : list jsstring) : jsstring :=
  match arr with
  | [] => []
  | [x] => x
  | x :: rest => x ++ sep ++ join sep rest
  end.

(** [s.includes(t)] as a proposition: [t] occurs in [s]. *)
Definition occurs_in (t s : jsstring) : Prop :=
  exists before after, s = before ++ t ++ after.

Fixpoint starts_with (t s : jsstring) : bool :=
  match t, s with
  | [], _ => true
  | _ :: _, [] => false
  | a :: t', b :: s' => (a =? b)%N && starts_with t' s'
  end.

(** [s.includes(t)] as a test. *)
Fixpoint includes (s t : jsstring) : bool :=
  starts_with t s ||
  match s with
  | [] => false
  | _ :: s' => includes s' t
  end.

End JsString.

Import JsString.

(* ===================================================================== *)
(** ** JavaScript numbers *)
(* ===================================================================== *)

Module JsNumber.

Inductive number : Type :=
| NaN
| NegInfinity
| Finite (q : Q)
| PosInfinity.

Definition of_Z (z : Z) : number := Finite (inject_Z z).

(** [a <= b]: false as soon as one side is NaN. *)
Definition le (a b : number) : bool :=
  match a, b with
  | NaN, _ | _, NaN => false
  | NegInfinity, _ => true
  | _, PosInfinity => true
  | Finite x, Finite y => Qle_bool x y
  | Finite _, NegInfinity => false
  | PosInfinity, _ => false
  end.

(** [a < b]: false as soon as one side is NaN. *)
Definition lt (a b : number) : bool :=
  match a, b with
  | NaN, _ | _, NaN => false
  | _, NegInfinity => false
  | PosInfinity, _ => false
  | NegInfinity, _ => true
  | Finite _, PosInfinity => true
  | Finite x, Finite y => negb (Qle_bool y x)
  end.

(** [a >= b] *)
Definition ge (a b : number) : bool := le b a.

(** ToBoolean on a number: +0, -0 and NaN are falsy. *)
Definition truthy (a : number) : bool :=
  match a with
  | NaN => false
  | Finite q => negb (Qeq_bool q 0)
  | NegInfinity | PosInfinity => true
  end.

End JsNumber.

Import JsNumber.

(* ===================================================================== *)
(** ** Regular expressions (the fragment used by the e-mail test) *)
(* ===================================================================== *)

Module Regex.

(** One-character matchers: a literal character or a negated class. *)
Inductive atom : Type :=
| Literal (c : code_unit)
| NegatedClass (members : code_unit -> bool).

(** An atom, possibly under the greedy quantifier [+]. *)
Inductive term : Type :=
| One (a : atom)
| OneOrMore (a : atom).

(** A pattern [^ t1 t2 ... tn $] without flags. *)
Definition pattern := list term.

Definition atom_matches (a : atom) (c : code_unit) : bool :=
  match a with
  | Literal d => (c =? d)%N
  | NegatedClass members => negb (members c)
  end.

(** Backtracking match of [a+] followed by the continuation [k]: take one
    character, then first try to take more, then try the continuation. *)
Fixpoint match_one_or_more (a : atom) (k : jsstring -> bool) (s : jsstring)
  : bool :=
  match s with
  | [] => false
  | c :: s' => atom_matches a c && (match_one_or_more a k s' || k s')
  end.

(** Match of the terms from the current position up to the end of input. *)
Fixpoint match_terms (ts : pattern) (s : jsstring) : bool :=
  match ts with
  | [] => match s with [] => true | _ :: _ => false end
  | One a :: ts' =>
      match s with
      | [] => false
      | c :: s' => atom_matches a c && match_terms ts' s'
      end
  | OneOrMore a :: ts' => match_one_or_more a (match_terms ts') s
  end.

(** [re.test(s)] for an anchored pattern: the match starts at index 0. *)
Definition test (re : pattern) (s : jsstring) : bool := match_terms re s.

End Regex.

(* ===================================================================== *)
(** ** Completions: calls that may throw *)
(* ===================================================================== *)

Inductive completion (A : Type) : Type :=
| Normal (a : A)
| Throw.
Arguments Normal {A} a.
Arguments Throw {A}.

Definition bind {A B : Type} (c : completion A) (k : A -> completion B)
  : completion B :=
  match c with
  | Normal a => k a
  | Throw => Throw
  end.

(** [try { c } catch (error) { handler }] *)
Definition try_catch {A : Type} (c : completion A) (handler : A) : A :=
  match c with
  | Normal a => a
  | Throw => handler
  end.

Declare Scope completion_scope.
Delimit Scope completion_scope with completion.
Notation "x <- c ;; k" := (bind c (fun x => k))
  (at level 61, c at next level, right associativity) : completion_scope.

(* ===================================================================== *)
(** ** The host: DOM elements, computed style, canvas *)
(* ===================================================================== *)

Module Dom.

Record CSSStyleDeclaration : Type := {
  fontStyle : jsstring;
  fontWeight : jsstring;
  fontSize : jsstring;
  fontFamily : jsstring
}.

(** The element behind [containerRef.current]; only its width is read. *)
Record HTMLElement : Type := {
  clientWidth : number
}.

(** A 2D context: the width in [measureText(text)] once [font] is set. *)
Record CanvasRenderingContext2D : Type := {
  measureText_width : jsstring -> jsstring -> completion number
}.

(** [canvas.getContext('2d')] may throw or return null. *)
Record HTMLCanvasElement : Type := {
  getContext2d : completion (option CanvasRenderingContext2D)
}.

(** [document.createElement('canvas')] *)
Record Document : Type := {
  createElement_canvas : completion HTMLCanvasElement
}.

(** [window.getComputedStyle(element)] *)
Record Window : Type := {
  getComputedStyle : HTMLElement -> completion CSSStyleDeclaration
}.

End Dom.

Import Dom.

(* ===================================================================== *)
(** ** [useTextMeasurement]: the measurement service *)
(* ===================================================================== *)

Module TextMeasurement.

(** What the hook returns, as its callers see it: two functions whose
    calls may complete normally or throw. *)
Record Service : Type := {
  measureTextWidth : jsstring -> jsstring -> completion number;
  getComputedFont : HTMLElement -> completion jsstring
}.

(** The [try] block of [measureTextWidth]: a null context returns 0. *)
Definition canvas_measure (document : Document) (text font : jsstring)
  : completion number :=
  (canvas <- createElement_canvas document ;;
   context <- getContext2d canvas ;;
   match context with
   | None => Normal (of_Z 0)
   | Some context => measureText_width context font text
   end)%completion.

(** The body of [measureTextWidth]: whatever is thrown inside the [try]
    block is caught and gives the width 0. *)
Definition measureTextWidth_body (document : Document)
    (text font : jsstring) : number :=
  try_catch (canvas_measure document text font) (of_Z 0).

(** The body of [getComputedFont]: the four resolved font properties
    separated by single spaces; nothing is caught here. *)
Definition getComputedFont_body (window : Window) (element : HTMLElement)
  : completion jsstring :=
  (style <- getComputedStyle window element ;;
   Normal (fontStyle style ++ [space] ++ fontWeight style ++ [space]
           ++ fontSize style ++ [space] ++ fontFamily style))%completion.

Definition useTextMeasurement (document : Document) (window : Window)
  : Service :=
  {| measureTextWidth := fun text font =>
       Normal (measureTextWidth_body document text font);
     getComputedFont := getComputedFont_body window |}.

End TextMeasurement.

Import TextMeasurement.

(* ===================================================================== *)
(** ** [useRecipientsCalculation]: the fitting engine *)
(* ===================================================================== *)

Module Recipients.

(** [RecipientsCalculationConfig]: every field is optional. *)
Record RecipientsCalculationConfig : Type := {
  maxWidth : option number;
  ellipsisSuffix : option jsstring;
  allowOverflow : option bool;
  minWidth : option number
}.

(** [config = {}] *)
Definition empty_config : RecipientsCalculationConfig :=
  {| maxWidth := None; ellipsisSuffix := None;
     allowOverflow := None; minWidth := None |}.

(** Defaults of the destructuring at the head of the hook. *)
Definition default_ellipsisSuffix : jsstring := lit ",...".
Definition default_allowOverflow : bool := true.
Definition default_minWidth : number := of_Z 50.

Definition or_default {A : Type} (field : option A) (default : A) : A :=
  match field with
  | Some v => v
  | None => default
  end.

(** The three [useState] cells of the hook. *)
Record CalcState : Type := {
  st_visibleList : list jsstring;
  st_hiddenCount : Z;
  st_isReady : bool
}.

Definition initial_state : CalcState :=
  {| st_visibleList := []; st_hiddenCount := 0%Z; st_isReady := false |}.

(** [RecipientsCalculationResult]: what the hook returns on a render. *)
Record RecipientsCalculationResult : Type := {
  visibleList : list jsstring;
  hiddenCount : Z;
  displayText : jsstring;
  isReady : bool
}.

(** [/^[^\s@]+@[^\s@]+\.[^\s@]+$/] *)
Definition not_space_or_at : Regex.atom :=
  Regex.NegatedClass (fun c => is_whitespace c || (c =? at_sign)%N).

Definition emailRegex : Regex.pattern :=
  [ Regex.OneOrMore not_space_or_at;
    Regex.One (Regex.Literal at_sign);
    Regex.OneOrMore not_space_or_at;
    Regex.One (Regex.Literal dot);
    Regex.OneOrMore not_space_or_at ].

(** The predicate of the [filter] call. *)
Definition is_valid_email (email : jsstring) : bool :=
  (0 <? str_length email)%Z && (str_length email <=? 254)%Z
  && Regex.test emailRegex email.

(** The [emails] memo: parse and validate the raw string. *)
Definition emails (recipients : jsstring) : list jsstring :=
  match recipients with
  | [] => []
  | _ :: _ =>
      List.filter is_valid_email (List.map trim (split comma recipients))
  end.

Definition separator : jsstring := lit ", ".

(** The text measured for the candidate prefix [proposedVisible] when the
    whole list has [total] items. *)
Definition totalText (total : nat) (suffix : jsstring)
    (proposedVisible : list jsstring) : jsstring :=
  let remaining := (Z.of_nat total - Z.of_nat (List.length proposedVisible))%Z in
  let visibleText := join separator proposedVisible in
  let suffix := if (0 <? remaining)%Z then suffix else [] in
  visibleText ++ suffix.

(** The [for] loop: [visible] is the array built so far and [rest] the
    items from index [i] on; [break] returns the array as it stands. *)
Fixpoint fit_loop (tm : Service) (total : nat) (suffix : jsstring)
    (allow : bool) (availableWidth : number) (font : jsstring)
    (visible rest : list jsstring) : completion (list jsstring) :=
  match rest with
  | [] => Normal visible
  | email :: rest' =>
      let proposedVisible := visible ++ [email] in
      (width <- measureTextWidth tm (totalText total suffix proposedVisible) font ;;
       if le width availableWidth
          || (Nat.eqb (List.length visible) 0 && allow)
       then fit_loop tm total suffix allow availableWidth font
                     (visible ++ [email]) rest'
       else Normal visible)%completion
  end.

(** [maxWidth || container.clientWidth] *)
Definition effective_width (maxWidth : option number)
    (container : HTMLElement) : number :=
  match maxWidth with
  | Some w => if truthy w then w else clientWidth container
  | None => clientWidth container
  end.

(** One call of [computeVisibleRecipients]: the state after its three
    setters have run. *)
Definition computeVisibleRecipients (tm : Service)
    (emails : list jsstring) (containerRef : option HTMLElement)
    (maxWidth : option number) (suffix : jsstring) (allow : bool)
    (minWidth : number) : CalcState :=
  match containerRef with
  | None =>
      {| st_visibleList := [];
         st_hiddenCount := Z.of_nat (List.length emails);
         st_isReady := true |}
  | Some container =>
      if Nat.eqb (List.length emails) 0 then
        {| st_visibleList := [];
           st_hiddenCount := Z.of_nat (List.length emails);
           st_isReady := true |}
      else
        let availableWidth := effective_width maxWidth container in
        if lt availableWidth minWidth then
          {| st_visibleList := [];
             st_hiddenCount := Z.of_nat (List.length emails);
             st_isReady := true |}
        else
          try_catch
            (font <- getComputedFont tm container ;;
             visible <- fit_loop tm (List.length emails) suffix allow
                           availableWidth font [] emails ;;
             Normal
               {| st_visibleList := visible;
                  st_hiddenCount :=
                    (Z.of_nat (List.length emails)
                     - Z.of_nat (List.length visible))%Z;
                  st_isReady := true |})%completion
            {| st_visibleList := emails;
               st_hiddenCount := 0%Z;
               st_isReady := true |}
  end.

(** The [displayText] memo. *)
Definition compose_displayText (st : CalcState) (suffix : jsstring)
  : jsstring :=
  if negb (st_isReady st) then []
  else
    let visibleText := join separator (st_visibleList st) in
    if (0 <? st_hiddenCount st)%Z then visibleText ++ suffix
    else visibleText.

(** The object returned by the hook on a render with state [st]. *)
Definition render (st : CalcState) (suffix : jsstring)
  : RecipientsCalculationResult :=
  {| visibleList := st_visibleList st;
     hiddenCount := st_hiddenCount st;
     displayText := compose_displayText st suffix;
     isReady := st_isReady st |}.

(** The hook over a measurement service: the render that follows one run
    of the recompute effect. *)
Definition recipientsCalculation (tm : Service) (recipients : jsstring)
    (containerRef : option HTMLElement)
    (config : RecipientsCalculationConfig) : RecipientsCalculationResult :=
  let suffix := or_default (ellipsisSuffix config) default_ellipsisSuffix in
  let allow := or_default (allowOverflow config) default_allowOverflow in
  let min := or_default (minWidth config) default_minWidth in
  render
    (computeVisibleRecipients tm (emails recipients) containerRef
       (maxWidth config) suffix allow min)
    suffix.

(** The hook as written: the service is [useTextMeasurement()]. *)
Definition useRecipientsCalculation (document : Document) (window : Window)
    (recipients : jsstring) (containerRef : option HTMLElement)
    (config : RecipientsCalculationConfig) : RecipientsCalculationResult :=
  recipientsCalculation (useTextMeasurement document window)
    recipients containerRef config.

End Recipients.

Import Recipients.

(* ===================================================================== *)
(** ** Vocabulary of the properties *)
(* ===================================================================== *)

Module Spec.

(** A character allowed in the three parts of an address: neither
    whitespace nor the at sign. *)
Definition plain (c : code_unit) : Prop :=
  is_whitespace c = false /\ c <> at_sign.

(** The [local@domain.tld] shape: three non-empty runs of plain
    characters around one at sign and a dot of the domain part. *)
Definition email_shape (token : jsstring) : Prop :=
  exists local domain tld,
    token = local ++ [at_sign] ++ domain ++ [dot] ++ tld /\
    local <> [] /\ domain <> [] /\ tld <> [] /\
    Forall plain local /\ Forall plain domain /\ Forall plain tld.

(** The validity predicate in the words of the data model. *)
Definition valid_item (token : jsstring) : Prop :=
  token <> [] /\ (List.length token <= 254)%nat /\ email_shape token.

(** The text tried for candidate number [i] (from 0): the first [i + 1]
    items joined by [", "], followed by the suffix marker exactly when
    items remain after them. *)
Definition trialText (items : list jsstring) (suffix : jsstring) (i : nat)
  : jsstring :=
  join separator (firstn (S i) items)
  ++ (if (S i <? List.length items)%nat then suffix else []).

(** The acceptance rule for candidate number [i] whose trial text has
    the measured width [width]: it fits, or it is the first candidate and
    a single overflow is allowed. *)
Definition accepts (availableWidth : number) (allow : bool)
    (width : number) (i : nat) : bool :=
  le width availableWidth || (Nat.eqb i 0 && allow).

End Spec.

Import Spec.

(* ===================================================================== *)
(** ** Concrete hosts and inputs *)
(* ===================================================================== *)

Module Examples.

Definition arial : CSSStyleDeclaration :=
  {| fontStyle := lit "normal"; fontWeight := lit "400";
     fontSize := lit "14px"; fontFamily := lit "Arial" |}.

Definition arial_font : jsstring := lit "normal 400 14px Arial".

(** A window whose style lookup succeeds, and one whose lookup throws. *)
Definition styled_window : Window :=
  {| getComputedStyle := fun _ => Normal arial |}.
Definition throwing_window : Window :=
  {| getComputedStyle := fun _ => Throw |}.

(** A canvas that renders every code unit [px] pixels wide. *)
Definition monospace_context (px : Z) : CanvasRenderingContext2D :=
  {| measureText_width := fun _ text => Normal (of_Z (px * str_length text)) |}.
Definition monospace_document (px : Z) : Document :=
  {| createElement_canvas :=
       Normal {| getContext2d := Normal (Some (monospace_context px)) |} |}.

(** A document without canvas support: creating the element throws. *)
Definition canvasless_document : Document :=
  {| createElement_canvas := Throw |}.

(** A canvas that throws on one text and reports 1000 pixels otherwise. *)
Definition flaky_context (bad : jsstring) : CanvasRenderingContext2D :=
  {| measureText_width := fun _ text =>
       if starts_with text bad && starts_with bad text then Throw
       else Normal (of_Z 1000) |}.
Definition flaky_document (bad : jsstring) : Document :=
  {| createElement_canvas :=
       Normal {| getContext2d := Normal (Some (flaky_context bad)) |} |}.

Definition container (width : Z) : HTMLElement :=
  {| clientWidth := of_Z width |}.

Definition three_recipients : jsstring := lit "a@x.com, bb@y.com, ccc@z.com".
Definition two_recipients : jsstring := lit "a@x.com, b@y.com".
Definition one_recipient : jsstring := lit "a@x.com".

End Examples.

(* ===================================================================== *)
(** ** [useTooltip]: the hover state *)
(* ===================================================================== *)

Module Tooltip.

Inductive Position : Type := Fixed | Absolute.

(** [TooltipConfig]: every field is optional. *)
Record TooltipConfig : Type := {
  showDelay : option number;
  hideDelay : option number;
  disabled : option bool;
  position : option Position
}.

Definition default_config : TooltipConfig :=
  {| showDelay := None; hideDelay := None; disabled := None;
     position := None |}.

(** A timer handle; handles are never 0, so a handle is truthy. *)
Definition timer := nat.

(** The host's timers: the next handle to give out and the callbacks
    still pending, each recorded with the value it passes to
    [setIsVisible]. The delay of a timer only decides when it fires; a
    pending timer may fire at any later moment. *)
Record Timers : Type := {
  next_timer : timer;
  pending : list (timer * bool)
}.

(** The three [useState] cells of the hook. *)
Record TooltipState : Type := {
  isVisible : bool;
  showTimeout : option timer;
  hideTimeout : option timer
}.

Definition initial_state : TooltipState :=
  {| isVisible := false; showTimeout := None; hideTimeout := None |}.

(** The hook between two renders. [rendered] holds the cells as the
    latest render read them: the four callbacks of that render closed
    over these values, and the hook returned this [isVisible]. [next]
    holds the cells as the setters have left them since: the next render
    reads them. *)
Record Hook : Type := {
  rendered : TooltipState;
  next : TooltipState
}.

Definition World : Type := (Hook * Timers)%type.

Definition initial_world : World :=
  ({| rendered := initial_state; next := initial_state |},
   {| next_timer := 1%nat; pending := [] |}).

(** [setTimeout(() => setIsVisible(value), delay)] *)
Definition setTimeout (value : bool) (timers : Timers) : timer * Timers :=
  (next_timer timers,
   {| next_timer := S (next_timer timers);
      pending := pending timers ++ [(next_timer timers, value)] |}).

(** [clearTimeout(handle)]: nothing happens for a handle that has fired
    or was cleared before. *)
Definition clearTimeout (handle : timer) (timers : Timers) : Timers :=
  {| next_timer := next_timer timers;
     pending :=
       List.filter (fun entry => negb (Nat.eqb (fst entry) handle))
         (pending timers) |}.

Definition setIsVisible (value : bool) (st : TooltipState) : TooltipState :=
  {| isVisible := value; showTimeout := showTimeout st;
     hideTimeout := hideTimeout st |}.

Definition setShowTimeout (value : option timer) (st : TooltipState)
  : TooltipState :=
  {| isVisible := isVisible st; showTimeout := value;
     hideTimeout := hideTimeout st |}.

Definition setHideTimeout (value : option timer) (st : TooltipState)
  : TooltipState :=
  {| isVisible := isVisible st; showTimeout := showTimeout st;
     hideTimeout := value |}.

(** [if (handle) { clearTimeout(handle); setter(null); }] where [handle]
    is the value the callback closed over. *)
Definition clear_recorded (handle : option timer)
    (setter : option timer -> TooltipState -> TooltipState)
    (cells : TooltipState * Timers) : TooltipState * Timers :=
  match handle with
  | Some h => (setter None (fst cells), clearTimeout h (snd cells))
  | None => cells
  end.

(** [show] *)
Definition show (config : TooltipConfig) (w : World) : World :=
  let (hook, timers) := w in
  if or_default (disabled config) false then w
  else
    let (cells, timers) :=
      clear_recorded (hideTimeout (rendered hook)) setHideTimeout
        (next hook, timers) in
    if lt (of_Z 0) (or_default (showDelay config) (of_Z 0)) then
      let (timeout, timers) := setTimeout true timers in
      ({| rendered := rendered hook;
          next := setShowTimeout (Some timeout) cells |}, timers)
    else
      ({| rendered := rendered hook; next := setIsVisible true cells |},
       timers).

(** [hide] *)
Definition hide (config : TooltipConfig) (w : World) : World :=
  let (hook, timers) := w in
  let (cells, timers) :=
    clear_recorded (showTimeout (rendered hook)) setShowTimeout
      (next hook, timers) in
  if lt (of_Z 0) (or_default (hideDelay config) (of_Z 0)) then
    let (timeout, timers) := setTimeout false timers in
    ({| rendered := rendered hook;
        next := setHideTimeout (Some timeout) cells |}, timers)
  else
    ({| rendered := rendered hook; next := setIsVisible false cells |},
     timers).

(** [showImmediate] *)
Definition showImmediate (config : TooltipConfig) (w : World) : World :=
  let (hook, timers) := w in
  if or_default (disabled config) false then w
  else
    let (cells, timers) :=
      clear_recorded (hideTimeout (rendered hook)) setHideTimeout
        (clear_recorded (showTimeout (rendered hook)) setShowTimeout
           (next hook, timers)) in
    ({| rendered := rendered hook; next := setIsVisible true cells |},
     timers).

(** [hideImmediate] *)
Definition hideImmediate (w : World) : World :=
  let (hook, timers) := w in
  let (cells, timers) :=
    clear_recorded (hideTimeout (rendered hook)) setHideTimeout
      (clear_recorded (showTimeout (rendered hook)) setShowTimeout
         (next hook, timers)) in
  ({| rendered := rendered hook; next := setIsVisible false cells |},
   timers).

(** The value carried by the pending timer [handle], if any. *)
Fixpoint pending_value (handle : timer) (entries : list (timer * bool))
  : option bool :=
  match entries with
  | [] => None
  | (h, value) :: entries' =>
      if Nat.eqb h handle then Some value else pending_value handle entries'
  end.

(** The timer [handle] fires: its callback calls [setIsVisible] and it
    is no longer pending; the recorded handles stay as they are. *)
Definition fire (handle : timer) (w : World) : World :=
  let (hook, timers) := w in
  match pending_value handle (pending timers) with
  | Some value =>
      ({| rendered := rendered hook;
          next := setIsVisible value (next hook) |},
       clearTimeout handle timers)
  | None => w
  end.

(** A render: the cells are read, and the callbacks are built anew
    around what was read. *)
Definition render_hook (w : World) : World :=
  let (hook, timers) := w in
  ({| rendered := next hook; next := next hook |}, timers).

(** What can happen to the hook: a call of one of the four functions of
    the latest render, a timer that fires, or a render. *)
Inductive event : Type :=
| Show
| Hide
| ShowImmediate
| HideImmediate
| Fire (handle : timer)
| Render.

Definition step (config : TooltipConfig) (w : World) (e : event) : World :=
  match e with
  | Show => show config w
  | Hide => hide config w
  | ShowImmediate => showImmediate config w
  | HideImmediate => hideImmediate w
  | Fire handle => fire handle w
  | Render => render_hook w
  end.

Definition run (config : TooltipConfig) (events : list event) (w : World)
  : World :=
  List.fold_left (step config) events w.

(** What the last call of a run asks for, when every call acts at once:
    a show call asks for a visible tooltip unless the hook is disabled, a
    hide call for a hidden one, a firing timer or a render for nothing. *)
Definition requested (config : TooltipConfig) (visible : bool) (e : event)
  : bool :=
  match e with
  | Show | ShowImmediate =>
      if or_default (disabled config) false then visible else true
  | Hide | HideImmediate => false
  | Fire _ | Render => visible
  end.

(** A world that cannot turn visible by itself: the tooltip is hidden, in
    the latest render and in the cells, and every pending timer hides. *)
Definition quiet (w : World) : Prop :=
  isVisible (rendered (fst w)) = false /\
  isVisible (next (fst w)) = false /\
  Forall (fun entry => snd entry = false) (pending (snd w)).

End Tooltip.

(* ===================================================================== *)
(** ** [RecipientsCell]: what the cell draws and reports *)
(* ===================================================================== *)

Module Cell.


(** The guard of the tooltip element: [showTooltip && hiddenCount > 0]. *)
Definition tooltip_rendered (showTooltip : bool)
    (r : RecipientsCalculationResult) : bool :=
  showTooltip && (0 <? hiddenCount r)%Z.

(** The [onTooltipShow] effect: the argument of the call when its guard
    [showTooltip && hiddenCount > 0] holds. *)
Definition onTooltipShow_call (showTooltip : bool)
    (r : RecipientsCalculationResult) : option Z :=
  if showTooltip && (0 <? hiddenCount r)%Z then Some (hiddenCount r)
  else None.

End Cell.

(* ===================================================================== *)
(** * Properties *)
(* ===================================================================== *)

(** ** Comparisons of numbers *)

Module JsNumberFacts.

Lemma le_trans (a b c : number) :
  le a b = true -> le b c = true -> le a c = true.
Proof.
  destruct a as [| |x|], b as [| |y|], c as [| |z|]; simpl;
    try discriminate; try reflexivity.
  rewrite !Qle_bool_iff. apply Qle_trans.
Qed.

(** [a >= m] excludes [a < m]. *)
Lemma ge_not_lt (a m : number) : ge a m = true -> lt a m = false.
Proof.
  unfold ge.
  destruct a as [| |x|], m as [| |y|]; simpl;
    try discriminate; try reflexivity.
  intros ->. reflexivity.
Qed.

(** Passing the minimum-width test is preserved by a larger width. *)
Lemma not_lt_le (a b m : number) :
  lt a m = false -> le a b = true -> lt b m = false.
Proof.
  destruct a as [| |x|], b as [| |y|], m as [| |z|]; simpl;
    try discriminate; try reflexivity.
  intros Hzx Hxy. apply negb_false_iff in Hzx.
  apply negb_false_iff. rewrite Qle_bool_iff in *.
  eapply Qle_trans; eassumption.
Qed.

Lemma truthy_zero : truthy (of_Z 0) = false.
Proof. reflexivity. Qed.

End JsNumberFacts.

(** ** Strings: split, join, trim, includes *)

Module JsStringFacts.

Lemma split_not_nil (sep : code_unit) (s : jsstring) : split sep s <> [].
Proof.
  destruct s as [|c s]; simpl; [discriminate|].
  destruct (c =? sep)%N; [discriminate|].
  destruct (split sep s); discriminate.
Qed.

(** No piece of a split contains the separator. *)
Lemma split_pieces_free (sep : code_unit) (s : jsstring) :
  Forall (fun piece => ~ In sep piece) (split sep s).
Proof.
  induction s as [|c s IH]; simpl.
  - constructor; [intros []|constructor].
  - destruct (N.eqb_spec c sep) as [->|Hne].
    + constructor; [intros []|exact IH].
    + destruct (split sep s) as [|piece pieces].
      * constructor; [|constructor]. intros [H|[]]. congruence.
      * inversion IH as [|? ? Hp Hps]; subst.
        constructor; [|exact Hps].
        intros [H|H]; [congruence|exact (Hp H)].
Qed.

(** Joining the pieces with the separator gives the string back. *)
Lemma join_split (sep : code_unit) (s : jsstring) :
  join [sep] (split sep s) = s.
Proof.
  induction s as [|c s IH]; simpl; [reflexivity|].
  destruct (N.eqb_spec c sep) as [->|Hne].
  - pose proof (split_not_nil sep s) as Hnn.
    destruct (split sep s) as [|piece pieces]; [contradiction|].
    simpl in *. rewrite IH. reflexivity.
  - pose proof (split_not_nil sep s) as Hnn.
    destruct (split sep s) as [|piece pieces]; [contradiction|].
    simpl in *. destruct pieces; simpl in *; rewrite <- IH; reflexivity.
Qed.

Lemma drop_while_decompose (p : code_unit -> bool) (s : jsstring) :
  exists dropped,
    s = dropped ++ drop_while p s /\
    Forall (fun c => p c = true) dropped /\
    match drop_while p s with
    | [] => True
    | c :: _ => p c = false
    end.
Proof.
  induction s as [|c s (dropped & Hs & Hall & Hhd)]; simpl.
  - exists []. repeat split. constructor.
  - destruct (p c) eqn:Hc.
    + exists (c :: dropped). repeat split; simpl.
      * congruence.
      * constructor; assumption.
      * exact Hhd.
    + exists []. repeat split; [constructor|exact Hc].
Qed.

(** [trim] removes a run of whitespace at each end and nothing else; what
    is left neither starts nor ends with whitespace. *)
Lemma trim_decompose (s : jsstring) :
  exists before after,
    s = before ++ trim s ++ after /\
    Forall (fun c => is_whitespace c = true) before /\
    Forall (fun c => is_whitespace c = true) after /\
    (forall c rest, trim s = c :: rest -> is_whitespace c = false) /\
    (forall c rest, trim s = rest ++ [c] -> is_whitespace c = false).
Proof.
  unfold trim, trimEnd, trimStart.
  destruct (drop_while_decompose is_whitespace s) as (before & Hs & Hb & Hhd).
  set (t := drop_while is_whitespace s) in *.
  destruct (drop_while_decompose is_whitespace (rev t)) as (retfa & Ht & Ha & Hlast).
  set (u := drop_while is_whitespace (rev t)) in *.
  exists before, (rev retfa).
  assert (Et : t = rev u ++ rev retfa).
  { rewrite <- rev_app_distr, <- Ht, rev_involutive. reflexivity. }
  repeat split.
  - rewrite <- Et. exact Hs.
  - exact Hb.
  - apply Forall_rev. exact Ha.
  - intros c rest Hu.
    destruct t as [|c0 t0].
    + simpl in Ht. destruct retfa, u; simpl in *; discriminate.
    + rewrite Hu in Et. simpl in Et. injection Et as -> _. exact Hhd.
  - intros c rest Hu.
    assert (Eu : u = c :: rev rest).
    { rewrite <- (rev_involutive u), Hu, rev_app_distr. reflexivity. }
    rewrite Eu in Hlast. exact Hlast.
Qed.

Lemma starts_with_spec (t s : jsstring) :
  starts_with t s = true <-> exists after, s = t ++ after.
Proof.
  revert s. induction t as [|a t IH]; intros s; simpl.
  - split; [intros _; exists s; reflexivity|reflexivity].
  - destruct s as [|b s]; simpl.
    + split; [discriminate|intros [after H]; discriminate].
    + rewrite andb_true_iff, N.eqb_eq, IH. split.
      * intros [-> [after ->]]. exists after. reflexivity.
      * intros [after H]. injection H as -> ->. split; [reflexivity|].
        exists after. reflexivity.
Qed.

(** The test [includes] decides the proposition [occurs_in]. *)
Lemma includes_spec (s t : jsstring) :
  includes s t = true <-> occurs_in t s.
Proof.
  unfold occurs_in. induction s as [|c s IH]; simpl.
  - rewrite orb_false_r, starts_with_spec. split.
    + intros [after H]. exists [], after. exact H.
    + intros (before & after & H). destruct before as [|b before].
      * exists after. exact H.
      * discriminate.
  - rewrite orb_true_iff, starts_with_spec, IH. split.
    + intros [[after H]|(before & after & H)].
      * exists [], after. exact H.
      * exists (c :: before), after. simpl. congruence.
    + intros (before & after & H). destruct before as [|b before].
      * left. exists after. exact H.
      * right. injection H as -> ->. exists before, after. reflexivity.
Qed.

Lemma occurs_in_suffix (t s : jsstring) : occurs_in t (s ++ t).
Proof. exists s, []. rewrite app_nil_r. reflexivity. Qed.

End JsStringFacts.

(** ** The e-mail pattern *)

Module RegexFacts.

Import Regex.

(** [a+] followed by [k] matches exactly the strings that split into a
    non-empty run of characters matched by [a] and a rest accepted by [k]. *)
Lemma match_one_or_more_spec (a : atom) (k : jsstring -> bool) (s : jsstring) :
  match_one_or_more a k s = true <->
  exists run rest,
    s = run ++ rest /\ run <> [] /\
    Forall (fun c => atom_matches a c = true) run /\ k rest = true.
Proof.
  induction s as [|c s IH]; simpl.
  - split; [discriminate|].
    intros (run & rest & Hs & Hne & _).
    destruct run; [contradiction|discriminate].
  - rewrite andb_true_iff, orb_true_iff, IH. split.
    + intros [Hc [(run & rest & -> & Hne & Hall & Hk)|Hk]].
      * exists (c :: run), rest. repeat split; auto. discriminate.
      * exists [c], s. repeat split; auto. discriminate.
    + intros (run & rest & Hs & Hne & Hall & Hk).
      destruct run as [|c0 run]; [contradiction|].
      injection Hs as <- ->. inversion Hall as [|? ? Hc Hrun]; subst.
      split; [exact Hc|].
      destruct run as [|c1 run].
      * right. exact Hk.
      * left. exists (c1 :: run), rest. repeat split; auto. discriminate.
Qed.

Lemma match_literal_spec (d : code_unit) (ts : pattern) (s : jsstring) :
  match_terms (One (Literal d) :: ts) s = true <->
  exists rest, s = d :: rest /\ match_terms ts rest = true.
Proof.
  simpl. destruct s as [|c s].
  - split; [discriminate|intros (rest & H & _); discriminate].
  - rewrite andb_true_iff, N.eqb_eq. split.
    + intros [-> H]. exists s. auto.
    + intros (rest & H & Hm). injection H as -> ->. auto.
Qed.

Lemma match_end_spec (s : jsstring) : match_terms [] s = true <-> s = [].
Proof. destruct s; simpl; split; congruence. Qed.

End RegexFacts.

Module ParsingFacts.

Lemma not_space_or_at_plain (c : code_unit) :
  Regex.atom_matches not_space_or_at c = true <-> plain c.
Proof.
  unfold plain. simpl.
  rewrite negb_true_iff, orb_false_iff, N.eqb_neq. reflexivity.
Qed.

Lemma Forall_plain (run : jsstring) :
  Forall (fun c => Regex.atom_matches not_space_or_at c = true) run <->
  Forall plain run.
Proof.
  split; intros H; eapply Forall_impl; try exact H;
    intros c; apply not_space_or_at_plain.
Qed.

(** The pattern accepts exactly the strings of the shape. *)
Lemma emailRegex_spec (token : jsstring) :
  Regex.test emailRegex token = true <-> email_shape token.
Proof.
  unfold Regex.test, emailRegex, email_shape.
  change (Regex.match_terms (Regex.OneOrMore not_space_or_at :: ?ts) ?s)
    with (Regex.match_one_or_more not_space_or_at (Regex.match_terms ts) s).
  rewrite RegexFacts.match_one_or_more_spec. split.
  - intros (local & r1 & -> & Hl & Hal & H1).
    apply RegexFacts.match_literal_spec in H1 as (r2 & -> & H2).
    change (Regex.match_terms (Regex.OneOrMore not_space_or_at :: ?ts) ?s)
      with (Regex.match_one_or_more not_space_or_at (Regex.match_terms ts) s)
      in H2.
    apply RegexFacts.match_one_or_more_spec in H2
      as (domain & r3 & -> & Hd & Had & H3).
    apply RegexFacts.match_literal_spec in H3 as (r4 & -> & H4).
    change (Regex.match_terms (Regex.OneOrMore not_space_or_at :: ?ts) ?s)
      with (Regex.match_one_or_more not_space_or_at (Regex.match_terms ts) s)
      in H4.
    apply RegexFacts.match_one_or_more_spec in H4
      as (tld & r5 & -> & Ht & Hat & H5).
    apply RegexFacts.match_end_spec in H5 as ->.
    exists local, domain, tld. rewrite app_nil_r.
    repeat split; auto; apply Forall_plain; assumption.
  - intros (local & domain & tld & -> & Hl & Hd & Ht & Hal & Had & Hat).
    exists local, ([at_sign] ++ domain ++ [dot] ++ tld).
    repeat split; auto; [apply Forall_plain; assumption|].
    apply RegexFacts.match_literal_spec.
    exists (domain ++ [dot] ++ tld). split; [reflexivity|].
    change (Regex.match_terms (Regex.OneOrMore not_space_or_at :: ?ts) ?s)
      with (Regex.match_one_or_more not_space_or_at (Regex.match_terms ts) s).
    apply RegexFacts.match_one_or_more_spec.
    exists domain, ([dot] ++ tld).
    repeat split; auto; [apply Forall_plain; assumption|].
    apply RegexFacts.match_literal_spec.
    exists tld. split; [reflexivity|].
    change (Regex.match_terms (Regex.OneOrMore not_space_or_at :: ?ts) ?s)
      with (Regex.match_one_or_more not_space_or_at (Regex.match_terms ts) s).
    apply RegexFacts.match_one_or_more_spec.
    exists tld, []. rewrite app_nil_r.
    repeat split; auto. apply Forall_plain; assumption.
Qed.

(** The filter predicate decides the validity predicate. *)
Lemma is_valid_email_spec (token : jsstring) :
  is_valid_email token = true <-> valid_item token.
Proof.
  unfold is_valid_email, valid_item, str_length.
  rewrite !andb_true_iff, Z.ltb_lt, Z.leb_le, emailRegex_spec.
  split.
  - intros [[Hpos Hmax] Hshape]. repeat split; [|lia|exact Hshape].
    intros ->. simpl in Hpos. lia.
  - intros (Hne & Hmax & Hshape). repeat split; [|lia|exact Hshape].
    destruct token; [contradiction|simpl; lia].
Qed.

(** The guard on the empty raw string changes nothing: the pipeline
    already gives the empty list for it. *)
Lemma emails_pipeline (recipients : jsstring) :
  emails recipients =
  List.filter is_valid_email (List.map trim (split comma recipients)).
Proof. destruct recipients; reflexivity. Qed.

(** C9. Parsing: the raw string is cut at every comma (the pieces hold no
    comma and, joined by commas, give the raw string back); each piece is
    trimmed at both ends (only whitespace is removed, and what is left
    neither starts nor ends with whitespace); the item list is, in the
    order of the pieces, exactly the trimmed pieces that are non-empty, of
    at most 254 characters and of the [local@domain.tld] shape. The raw
    string ["notanemail, ok@z.com"] gives the single item ["ok@z.com"]. *)
Theorem emails_parsing :
  (forall recipients,
     emails recipients =
     List.filter is_valid_email (List.map trim (split comma recipients))) /\
  (forall recipients,
     join [comma] (split comma recipients) = recipients /\
     Forall (fun piece => ~ In comma piece) (split comma recipients)) /\
  (forall token,
     exists before after,
       token = before ++ trim token ++ after /\
       Forall (fun c => is_whitespace c = true) before /\
       Forall (fun c => is_whitespace c = true) after /\
       (forall c rest, trim token = c :: rest -> is_whitespace c = false) /\
       (forall c rest, trim token = rest ++ [c] -> is_whitespace c = false)) /\
  (forall token, is_valid_email token = true <-> valid_item token) /\
  (forall recipients token,
     In token (emails recipients) <->
     In token (List.map trim (split comma recipients)) /\ valid_item token) /\
  emails (lit "notanemail, ok@z.com") = [lit "ok@z.com"] /\
  emails (lit "  a@b.c ,x@y.z,, c@d.e  ,")
  = [lit "a@b.c"; lit "x@y.z"; lit "c@d.e"].
Proof.
  split; [exact emails_pipeline|].
  split.
  { intros recipients. split.
    - apply JsStringFacts.join_split.
    - apply JsStringFacts.split_pieces_free. }
  split; [exact JsStringFacts.trim_decompose|].
  split; [exact is_valid_email_spec|].
  split; [|split; reflexivity].
  intros recipients token.
  rewrite emails_pipeline, filter_In, is_valid_email_spec. reflexivity.
Qed.

End ParsingFacts.

(** ** The fitting loop *)

Module FittingFacts.

Lemma firstn_length_app {A : Type} (l1 l2 : list A) :
  firstn (List.length l1) (l1 ++ l2) = l1.
Proof.
  rewrite firstn_app, Nat.sub_diag, firstn_all. simpl. apply app_nil_r.
Qed.

Lemma firstn_succ_length_app {A : Type} (l1 : list A) (x : A) (l2 : list A) :
  firstn (S (List.length l1)) (l1 ++ x :: l2) = l1 ++ [x].
Proof.
  replace (l1 ++ x :: l2) with ((l1 ++ [x]) ++ l2)
    by (rewrite <- app_assoc; reflexivity).
  replace (S (List.length l1)) with (List.length (l1 ++ [x]))
    by (rewrite length_app; simpl; lia).
  apply firstn_length_app.
Qed.

(** The text measured by the loop for the candidate at index
    [length visible] is the trial text of the specification. *)
Lemma totalText_trialText (items visible : list jsstring) (email : jsstring)
    (rest : list jsstring) (suffix : jsstring) :
  items = visible ++ email :: rest ->
  totalText (List.length items) suffix (visible ++ [email]) =
  trialText items suffix (List.length visible).
Proof.
  intros ->. unfold totalText, trialText.
  rewrite firstn_succ_length_app. f_equal.
  rewrite !length_app. simpl.
  destruct (Nat.ltb_spec (S (List.length visible))
              (List.length visible + S (List.length rest))) as [H|H];
    destruct (Z.ltb_spec 0
                (Z.of_nat (List.length visible + S (List.length rest))
                 - Z.of_nat (List.length visible + 1))) as [H'|H'];
    try reflexivity; lia.
Qed.

Section Loop.

Variable tm : Service.
Variable items : list jsstring.
Variable suffix : jsstring.
Variable allow : bool.
Variable font : jsstring.

Local Abbreviation loop availableWidth :=
  (fit_loop tm (List.length items) suffix allow availableWidth font).

(** Whatever the loop returns is what it started from, extended by a
    prefix of the items still to be tried. *)
Lemma fit_loop_prefix (availableWidth : number) :
  forall rest visible result,
    loop availableWidth visible rest = Normal result ->
    exists k, (k <= List.length rest)%nat /\
              result = visible ++ firstn k rest.
Proof.
  induction rest as [|email rest IH]; intros visible result; simpl.
  - intros [= <-]. exists 0%nat. rewrite app_nil_r. auto.
  - destruct (measureTextWidth tm _ font) as [width|]; simpl; [|discriminate].
    destruct (le width availableWidth || _).
    + intros H. apply IH in H as (k & Hk & ->).
      exists (S k). split; [lia|]. simpl. rewrite <- app_assoc. reflexivity.
    + intros [= <-]. exists 0%nat. rewrite app_nil_r. split; [lia|reflexivity].
Qed.

(** When every measurement completes normally, the loop stops at the
    first candidate that the acceptance rule rejects. *)
Lemma fit_loop_greedy (availableWidth : number)
    (width : jsstring -> number) :
  (forall text, measureTextWidth tm text font = Normal (width text)) ->
  forall rest visible,
    items = visible ++ rest ->
    exists k,
      (List.length visible <= k <= List.length items)%nat /\
      loop availableWidth visible rest = Normal (firstn k items) /\
      (forall i, (List.length visible <= i < k)%nat ->
         accepts availableWidth allow
           (width (trialText items suffix i)) i = true) /\
      ((k < List.length items)%nat ->
         accepts availableWidth allow
           (width (trialText items suffix k)) k = false).
Proof.
  intros Hwidth.
  induction rest as [|email rest IH]; intros visible Hitems.
  - exists (List.length visible). rewrite app_nil_r in Hitems. subst visible.
    simpl. rewrite firstn_all. repeat split; auto; lia.
  - simpl.
    rewrite (totalText_trialText items visible email rest suffix Hitems),
      Hwidth.
    simpl.
    fold (accepts availableWidth allow
            (width (trialText items suffix (List.length visible)))
            (List.length visible)).
    destruct (accepts availableWidth allow _ (List.length visible)) eqn:Hacc.
    + destruct (IH (visible ++ [email])) as (k & Hk & Hloop & Hbefore & Hat).
      { rewrite <- app_assoc. exact Hitems. }
      rewrite length_app in Hk, Hbefore. simpl in Hk, Hbefore.
      exists k. repeat split; auto; try lia.
      intros i Hi.
      destruct (Nat.eq_dec i (List.length visible)) as [->|Hne];
        [exact Hacc|apply Hbefore; lia].
    + exists (List.length visible). repeat split.
      * lia.
      * rewrite Hitems, length_app. lia.
      * rewrite Hitems, firstn_length_app. reflexivity.
      * intros i Hi. lia.
      * intros _. exact Hacc.
Qed.

(** A wider budget never shortens what the loop returns; a throw happens
    at the narrower budget only if it also happens at the wider one. *)
Lemma fit_loop_monotone (narrow wide : number) :
  le narrow wide = true ->
  forall rest visible,
    match loop narrow visible rest, loop wide visible rest with
    | Normal v1, Normal v2 => (List.length v1 <= List.length v2)%nat
    | Normal _, Throw => True
    | Throw, Throw => True
    | Throw, Normal _ => False
    end.
Proof.
  intros Hle.
  induction rest as [|email rest IH]; intros visible; simpl.
  - lia.
  - destruct (measureTextWidth tm _ font) as [width|]; simpl; [|exact I].
    destruct (le width narrow) eqn:Hn; simpl.
    + rewrite (JsNumberFacts.le_trans _ _ _ Hn Hle). simpl. apply IH.
    + destruct (Nat.eqb (List.length visible) 0 && allow); simpl.
      * rewrite orb_true_r. apply IH.
      * rewrite orb_false_r. destruct (le width wide); [|lia].
        destruct (loop wide (visible ++ [email]) rest) as [v2|] eqn:Hw;
          [|exact I].
        apply fit_loop_prefix in Hw as (k & _ & ->).
        rewrite !length_app. lia.
Qed.

End Loop.

(** With the overflow escape, the first candidate is always taken. *)
Lemma fit_loop_first_accepted (tm : Service) (items : list jsstring)
    (suffix : jsstring) (availableWidth : number) (font email : jsstring)
    (rest result : list jsstring) :
  fit_loop tm (List.length items) suffix true availableWidth font
    [] (email :: rest) = Normal result ->
  exists k, result = email :: firstn k rest.
Proof.
  intros H. simpl in H.
  destruct (measureTextWidth tm _ font) as [width|]; simpl in H;
    [|discriminate].
  rewrite orb_true_r in H.
  apply fit_loop_prefix in H as (k & _ & ->). exists k. reflexivity.
Qed.


End FittingFacts.

(** ** One evaluation of the hook *)

Module EngineFacts.

Import FittingFacts.

(** The three setters always run: every evaluation ends ready. *)
Lemma computeVisibleRecipients_ready (tm : Service) (items : list jsstring)
    (containerRef : option HTMLElement) (maxWidth : option number)
    (suffix : jsstring) (allow : bool) (min : number) :
  st_isReady
    (computeVisibleRecipients tm items containerRef maxWidth suffix allow min)
  = true.
Proof.
  unfold computeVisibleRecipients.
  destruct containerRef as [container|]; [|reflexivity].
  destruct (Nat.eqb _ 0); [reflexivity|].
  destruct (lt _ min); [reflexivity|].
  destruct (getComputedFont tm container) as [font|]; simpl; [|reflexivity].
  destruct (fit_loop _ _ _ _ _ _ _ _); reflexivity.
Qed.

(** The visible list is a prefix of the items, and the hidden count is
    what is left: the shape of the state on every path. *)
Lemma computeVisibleRecipients_shape (tm : Service) (items : list jsstring)
    (containerRef : option HTMLElement) (maxWidth : option number)
    (suffix : jsstring) (allow : bool) (min : number) :
  exists k,
    (k <= List.length items)%nat /\
    computeVisibleRecipients tm items containerRef maxWidth suffix allow min
    = {| st_visibleList := firstn k items;
         st_hiddenCount := (Z.of_nat (List.length items) - Z.of_nat k)%Z;
         st_isReady := true |}.
Proof.
  assert (Hempty :
    exists k, (k <= List.length items)%nat /\
      {| st_visibleList := [];
         st_hiddenCount := Z.of_nat (List.length items);
         st_isReady := true |}
      = {| st_visibleList := firstn k items;
           st_hiddenCount := (Z.of_nat (List.length items) - Z.of_nat k)%Z;
           st_isReady := true |}).
  { exists 0%nat. split; [lia|]. simpl. f_equal. lia. }
  assert (Hall :
    exists k, (k <= List.length items)%nat /\
      {| st_visibleList := items; st_hiddenCount := 0%Z; st_isReady := true |}
      = {| st_visibleList := firstn k items;
           st_hiddenCount := (Z.of_nat (List.length items) - Z.of_nat k)%Z;
           st_isReady := true |}).
  { exists (List.length items). split; [lia|].
    rewrite firstn_all. f_equal. lia. }
  unfold computeVisibleRecipients.
  destruct containerRef as [container|]; [|exact Hempty].
  destruct (Nat.eqb _ 0); [exact Hempty|].
  destruct (lt _ min); [exact Hempty|].
  destruct (getComputedFont tm container) as [font|]; simpl; [|exact Hall].
  destruct (fit_loop _ _ _ _ _ _ _ _) as [visible|] eqn:Hloop; simpl;
    [|exact Hall].
  apply fit_loop_prefix in Hloop as (k & Hk & ->). simpl.
  exists k. split; [exact Hk|].
  rewrite length_firstn, Nat.min_l by exact Hk. reflexivity.
Qed.

(** The [catch] block: a throw of the font lookup or of a measurement
    call inside the [try] block gives the show-everything state. *)
Lemma computeVisibleRecipients_catch (tm : Service) (items : list jsstring)
    (container : HTMLElement) (maxWidth : option number)
    (suffix : jsstring) (allow : bool) (min : number) :
  items <> [] ->
  lt (effective_width maxWidth container) min = false ->
  (getComputedFont tm container = Throw \/
   exists font,
     getComputedFont tm container = Normal font /\
     fit_loop tm (List.length items) suffix allow
       (effective_width maxWidth container) font [] items = Throw) ->
  computeVisibleRecipients tm items (Some container) maxWidth suffix allow min
  = {| st_visibleList := items; st_hiddenCount := 0%Z; st_isReady := true |}.
Proof.
  intros Hne Hmin Hthrow. unfold computeVisibleRecipients.
  destruct (Nat.eqb_spec (List.length items) 0) as [Hlen|_].
  { destruct items; [contradiction|discriminate]. }
  rewrite Hmin.
  destruct Hthrow as [->|(font & -> & Hloop)]; [reflexivity|].
  unfold bind at 1. rewrite Hloop. reflexivity.
Qed.

(** The measurement function of the hook never throws, and a throw of
    the canvas is reported as the width 0. *)
Lemma measureTextWidth_total (document : Document) (window : Window)
    (text font : jsstring) :
  measureTextWidth (useTextMeasurement document window) text font
  = Normal (measureTextWidth_body document text font).
Proof. reflexivity. Qed.

Lemma measureTextWidth_caught (document : Document) (text font : jsstring) :
  canvas_measure document text font = Throw ->
  measureTextWidth_body document text font = of_Z 0.
Proof. unfold measureTextWidth_body. intros ->. reflexivity. Qed.

End EngineFacts.

(** ** Results of the hook *)

Module ResultFacts.

Import FittingFacts EngineFacts Examples.

(** C2. For every raw string, container reference and configuration, and
    whatever the measurement service does (normal fitting, the three
    degenerate exits, the catch block), the number of visible items plus
    the hidden count is the number of valid items. *)
Theorem visible_plus_hidden_is_total (tm : Service) (recipients : jsstring)
    (containerRef : option HTMLElement)
    (config : RecipientsCalculationConfig) :
  let result := recipientsCalculation tm recipients containerRef config in
  (Z.of_nat (List.length (visibleList result)) + hiddenCount result
   = Z.of_nat (List.length (emails recipients)))%Z.
Proof.
  unfold recipientsCalculation, render. simpl.
  destruct (computeVisibleRecipients_shape tm (emails recipients) containerRef
              (maxWidth config)
              (or_default (ellipsisSuffix config) default_ellipsisSuffix)
              (or_default (allowOverflow config) default_allowOverflow)
              (or_default (minWidth config) default_minWidth))
    as (k & Hk & ->).
  simpl. rewrite length_firstn, Nat.min_l by exact Hk. lia.
Qed.

(** C3. The visible items are the first [k] valid items, in their
    order, for some [k]: a contiguous prefix, nothing skipped or moved. *)
Theorem visible_is_prefix (tm : Service) (recipients : jsstring)
    (containerRef : option HTMLElement)
    (config : RecipientsCalculationConfig) :
  let result := recipientsCalculation tm recipients containerRef config in
  exists k,
    (k <= List.length (emails recipients))%nat /\
    visibleList result = firstn k (emails recipients) /\
    emails recipients = visibleList result ++ skipn k (emails recipients).
Proof.
  unfold recipientsCalculation, render. simpl.
  destruct (computeVisibleRecipients_shape tm (emails recipients) containerRef
              (maxWidth config)
              (or_default (ellipsisSuffix config) default_ellipsisSuffix)
              (or_default (allowOverflow config) default_allowOverflow)
              (or_default (minWidth config) default_minWidth))
    as (k & Hk & ->).
  simpl. exists k. repeat split; auto.
  symmetry. apply firstn_skipn.
Qed.

(** C4, as the code has it. On the three degenerate exits (no valid item,
    container not attached, width below the minimum) the result has no
    visible item, hides every valid item and is ready; its display text
    is empty when there is no valid item and is the suffix marker alone
    when there is one. *)
Theorem degenerate_result (tm : Service) (recipients : jsstring)
    (containerRef : option HTMLElement)
    (config : RecipientsCalculationConfig) :
  emails recipients = [] \/
  containerRef = None \/
  (exists container,
     containerRef = Some container /\
     lt (effective_width (maxWidth config) container)
        (or_default (minWidth config) default_minWidth) = true) ->
  recipientsCalculation tm recipients containerRef config
  = {| visibleList := [];
       hiddenCount := Z.of_nat (List.length (emails recipients));
       displayText :=
         match emails recipients with
         | [] => []
         | _ :: _ => or_default (ellipsisSuffix config) default_ellipsisSuffix
         end;
       isReady := true |}.
Proof.
  intros Hdegenerate.
  unfold recipientsCalculation, render, compose_displayText.
  assert (Hstate :
    computeVisibleRecipients tm (emails recipients) containerRef
      (maxWidth config)
      (or_default (ellipsisSuffix config) default_ellipsisSuffix)
      (or_default (allowOverflow config) default_allowOverflow)
      (or_default (minWidth config) default_minWidth)
    = {| st_visibleList := [];
         st_hiddenCount := Z.of_nat (List.length (emails recipients));
         st_isReady := true |}).
  { unfold computeVisibleRecipients.
    destruct containerRef as [container|]; [|reflexivity].
    destruct (Nat.eqb_spec (List.length (emails recipients)) 0) as [_|Hlen];
      [reflexivity|].
    destruct Hdegenerate as [Hnil|[Hnone|(c & [= <-] & ->)]].
    - rewrite Hnil in Hlen. contradiction.
    - discriminate.
    - reflexivity. }
  rewrite Hstate. simpl.
  destruct (emails recipients); reflexivity.
Qed.

Lemma degenerate_result_witness :
  recipientsCalculation (useTextMeasurement (monospace_document 5) styled_window)
    three_recipients (Some (container 40)) empty_config
  = {| visibleList := [];
       hiddenCount := 3;
       displayText := lit ",...";
       isReady := true |}.
Proof.
  apply (degenerate_result
           (useTextMeasurement (monospace_document 5) styled_window)
           three_recipients (Some (container 40)) empty_config).
  right. right. exists (container 40). split; reflexivity.
Defined.

(** C4 as stated fails: with one valid item and no attached container
    the display text is the suffix marker, not the empty string. *)
Lemma degenerate_displayText_not_empty :
  useRecipientsCalculation (monospace_document 5) styled_window
    one_recipient None empty_config
  <> {| visibleList := [];
        hiddenCount := Z.of_nat (List.length (emails one_recipient));
        displayText := [];
        isReady := true |}.
Proof. vm_compute. discriminate. Qed.

(** C7. With the overflow escape on, an attached container and a width
    not below the minimum, the first valid item is always visible; when
    it is the only valid item the result shows it and hides nothing,
    however wide it measures. *)
Theorem overflow_escape (tm : Service) (recipients : jsstring)
    (container : HTMLElement) (config : RecipientsCalculationConfig) :
  or_default (allowOverflow config) default_allowOverflow = true ->
  ge (effective_width (maxWidth config) container)
     (or_default (minWidth config) default_minWidth) = true ->
  let result :=
    recipientsCalculation tm recipients (Some container) config in
  (forall first others,
     emails recipients = first :: others ->
     exists shown, visibleList result = first :: shown) /\
  (forall item,
     emails recipients = [item] ->
     visibleList result = [item] /\ hiddenCount result = 0%Z).
Proof.
  intros Hallow Hmin result.
  assert (Hfirst : forall first others,
            emails recipients = first :: others ->
            exists shown, visibleList result = first :: shown).
  { intros first others Hitems. subst result.
    unfold recipientsCalculation, render, computeVisibleRecipients.
    cbn [visibleList].
    rewrite Hitems, Hallow, (JsNumberFacts.ge_not_lt _ _ Hmin).
    change (Nat.eqb (List.length (first :: others)) 0) with false. cbv iota.
    destruct (getComputedFont tm container) as [font|]; cbn [bind];
      [|exists others; reflexivity].
    destruct (fit_loop _ _ _ _ _ _ _ _) as [visible|] eqn:Hloop;
      cbn [bind try_catch st_visibleList]; [|exists others; reflexivity].
    apply fit_loop_first_accepted in Hloop as (k & ->).
    exists (firstn k others). reflexivity. }
  split; [exact Hfirst|].
  intros item Hitems.
  destruct (Hfirst item [] Hitems) as (shown & Hshown).
  subst result. unfold recipientsCalculation, render in *.
  cbn [visibleList hiddenCount] in *.
  destruct (computeVisibleRecipients_shape tm (emails recipients)
              (Some container) (maxWidth config)
              (or_default (ellipsisSuffix config) default_ellipsisSuffix)
              (or_default (allowOverflow config) default_allowOverflow)
              (or_default (minWidth config) default_minWidth))
    as (k & Hk & Hshape).
  rewrite Hshape in *. cbn [st_visibleList st_hiddenCount] in *.
  rewrite Hitems in *. cbn [List.length] in *.
  destruct k as [|[|k]]; [discriminate| |lia].
  split; reflexivity.
Qed.

Lemma overflow_escape_witness :
  let result :=
    recipientsCalculation
      (useTextMeasurement (monospace_document 100) styled_window)
      one_recipient (Some (container 60)) empty_config in
  visibleList result = [lit "a@x.com"] /\ hiddenCount result = 0%Z.
Proof.
  apply (overflow_escape
           (useTextMeasurement (monospace_document 100) styled_window)
           one_recipient (container 60) empty_config);
    reflexivity.
Defined.


(** The pass as the code runs it, once the guards are passed and the font
    is read: the state is the items before the first candidate that the
    acceptance rule rejects. *)
Lemma fitting_pass_state (document : Document) (window : Window)
    (items : list jsstring) (container : HTMLElement)
    (maxWidth : option number) (suffix : jsstring) (allow : bool)
    (min : number) (font : jsstring) :
  items <> [] ->
  lt (effective_width maxWidth container) min = false ->
  getComputedFont (useTextMeasurement document window) container
  = Normal font ->
  exists k,
    (k <= List.length items)%nat /\
    computeVisibleRecipients (useTextMeasurement document window) items
      (Some container) maxWidth suffix allow min
    = {| st_visibleList := firstn k items;
         st_hiddenCount := (Z.of_nat (List.length items) - Z.of_nat k)%Z;
         st_isReady := true |} /\
    (forall i, (i < k)%nat ->
       accepts (effective_width maxWidth container) allow
         (measureTextWidth_body document (trialText items suffix i) font) i
       = true) /\
    ((k < List.length items)%nat ->
     accepts (effective_width maxWidth container) allow
       (measureTextWidth_body document (trialText items suffix k) font) k
     = false).
Proof.
  intros Hne Hmin Hfont.
  destruct (fit_loop_greedy (useTextMeasurement document window) items suffix
              allow font (effective_width maxWidth container)
              (fun text => measureTextWidth_body document text font)
              (fun text => eq_refl) items [] eq_refl)
    as (k & Hk & Hloop & Hbefore & Hat).
  exists k. split; [lia|]. split; [|split].
  - unfold computeVisibleRecipients.
    destruct (Nat.eqb_spec (List.length items) 0) as [Hlen|_].
    { exfalso. apply Hne. apply length_zero_iff_nil. exact Hlen. }
    rewrite Hmin, Hfont. cbn [bind]. rewrite Hloop.
    cbn [bind try_catch]. rewrite length_firstn, Nat.min_l by lia.
    reflexivity.
  - intros i Hi. apply Hbefore. simpl. lia.
  - exact Hat.
Qed.

(** C1. With a valid item, an attached container whose font is read and
    a width not below the minimum, the visible list is built greedily in
    item order: candidate [i] is tried on the text made of the first
    [i + 1] items joined by [", "], followed by the suffix marker exactly
    when items remain; it is taken iff the measured width of that text is
    at most the available width, or it is the first candidate and the
    overflow escape is on; the pass stops at the first candidate that is
    not taken, so the visible list is the items before it. *)
Theorem greedy_fitting_pass (document : Document) (window : Window)
    (recipients : jsstring) (container : HTMLElement)
    (config : RecipientsCalculationConfig) (font : jsstring) :
  emails recipients <> [] ->
  ge (effective_width (maxWidth config) container)
     (or_default (minWidth config) default_minWidth) = true ->
  getComputedFont (useTextMeasurement document window) container
  = Normal font ->
  let items := emails recipients in
  let suffix := or_default (ellipsisSuffix config) default_ellipsisSuffix in
  let allow := or_default (allowOverflow config) default_allowOverflow in
  let availableWidth := effective_width (maxWidth config) container in
  let width i :=
    measureTextWidth_body document (trialText items suffix i) font in
  let result :=
    useRecipientsCalculation document window recipients (Some container)
      config in
  exists k,
    (k <= List.length items)%nat /\
    visibleList result = firstn k items /\
    hiddenCount result = (Z.of_nat (List.length items) - Z.of_nat k)%Z /\
    (forall i, (i < k)%nat -> accepts availableWidth allow (width i) i = true) /\
    ((k < List.length items)%nat ->
     accepts availableWidth allow (width k) k = false).
Proof.
  intros Hne Hmin Hfont. cbv zeta.
  destruct (fitting_pass_state document window (emails recipients) container
              (maxWidth config)
              (or_default (ellipsisSuffix config) default_ellipsisSuffix)
              (or_default (allowOverflow config) default_allowOverflow)
              (or_default (minWidth config) default_minWidth) font
              Hne (JsNumberFacts.ge_not_lt _ _ Hmin) Hfont)
    as (k & Hk & Hstate & Hbefore & Hat).
  exists k.
  unfold useRecipientsCalculation, recipientsCalculation, render.
  rewrite Hstate. cbn [visibleList hiddenCount st_visibleList st_hiddenCount].
  repeat split; assumption.
Qed.

Lemma greedy_fitting_pass_witness :
  exists k,
    (k <= 3)%nat /\
    visibleList
      (useRecipientsCalculation (monospace_document 5) styled_window
         three_recipients (Some (container 110)) empty_config)
    = firstn k (emails three_recipients) /\
    hiddenCount
      (useRecipientsCalculation (monospace_document 5) styled_window
         three_recipients (Some (container 110)) empty_config)
    = (3 - Z.of_nat k)%Z.
Proof.
  destruct (greedy_fitting_pass (monospace_document 5) styled_window
              three_recipients (container 110) empty_config arial_font)
    as (k & Hk & Hvisible & Hhidden & _).
  - vm_compute. discriminate.
  - reflexivity.
  - reflexivity.
  - exists k. repeat split; assumption.
Defined.

(** C6. For a fixed raw string, suffix marker, overflow flag, minimum
    width and measurement service, and a container whose font lookup
    answers the same, a larger available width (by override or by the
    container's own width) never gives fewer visible items. *)
Theorem wider_never_shows_fewer (tm : Service) (recipients : jsstring)
    (narrow wide : HTMLElement) (override_narrow override_wide : option number)
    (suffix : option jsstring) (allow : option bool) (min : option number) :
  getComputedFont tm narrow = getComputedFont tm wide ->
  le (effective_width override_narrow narrow)
     (effective_width override_wide wide) = true ->
  (List.length
     (visibleList
        (recipientsCalculation tm recipients (Some narrow)
           {| maxWidth := override_narrow; ellipsisSuffix := suffix;
              allowOverflow := allow; minWidth := min |}))
   <= List.length
        (visibleList
           (recipientsCalculation tm recipients (Some wide)
              {| maxWidth := override_wide; ellipsisSuffix := suffix;
                 allowOverflow := allow; minWidth := min |})))%nat.
Proof.
  intros Hfont Hle.
  unfold recipientsCalculation, render, computeVisibleRecipients.
  cbn [visibleList maxWidth ellipsisSuffix allowOverflow minWidth].
  destruct (Nat.eqb (List.length (emails recipients)) 0); [simpl; lia|].
  destruct (lt (effective_width override_narrow narrow) _) eqn:Hmin;
    [simpl; lia|].
  rewrite (JsNumberFacts.not_lt_le _ _ _ Hmin Hle), <- Hfont.
  destruct (getComputedFont tm narrow) as [font|]; cbn [bind];
    [|simpl; lia].
  pose proof (fit_loop_monotone tm (emails recipients)
                (or_default suffix default_ellipsisSuffix)
                (or_default allow default_allowOverflow) font
                _ _ Hle (emails recipients) []) as Hmono.
  destruct (fit_loop _ _ _ _ (effective_width override_narrow narrow) _ _ _)
    as [v1|] eqn:H1;
    destruct (fit_loop _ _ _ _ (effective_width override_wide wide) _ _ _)
      as [v2|] eqn:H2;
    cbn [bind try_catch st_visibleList].
  - exact Hmono.
  - apply fit_loop_prefix in H1 as (k & Hk & ->).
    simpl. rewrite length_firstn. lia.
  - contradiction.
  - lia.
Qed.

Lemma wider_never_shows_fewer_witness :
  (List.length
     (visibleList
        (recipientsCalculation
           (useTextMeasurement (monospace_document 5) styled_window)
           three_recipients (Some (container 60))
           {| maxWidth := None; ellipsisSuffix := None;
              allowOverflow := None; minWidth := None |}))
   <= List.length
        (visibleList
           (recipientsCalculation
              (useTextMeasurement (monospace_document 5) styled_window)
              three_recipients (Some (container 200))
              {| maxWidth := None; ellipsisSuffix := None;
                 allowOverflow := None; minWidth := None |})))%nat.
Proof.
  apply (wider_never_shows_fewer
           (useTextMeasurement (monospace_document 5) styled_window)
           three_recipients (container 60) (container 200)
           None None None None None);
    reflexivity.
Defined.

(** *** The suffix marker in the display text *)

Lemma includes_skip_free (c : code_unit) (t run rest : jsstring) :
  ~ In c run ->
  includes (run ++ rest) (c :: t) = includes rest (c :: t).
Proof.
  induction run as [|d run IH]; intros Hfree; [reflexivity|].
  cbn [app includes starts_with].
  destruct (N.eqb_spec c d) as [->|_].
  - exfalso. apply Hfree. left. reflexivity.
  - cbn [andb orb]. apply IH. intros H. apply Hfree. right. exact H.
Qed.

(** The default marker [",..."] does not occur in comma-free items
    joined by [", "]: there every comma is followed by a space. *)
Lemma join_excludes_default_marker (items : list jsstring) :
  Forall (fun item => ~ In comma item) items ->
  includes (join separator items) default_ellipsisSuffix = false.
Proof.
  induction items as [|item items IH]; intros Hfree; [reflexivity|].
  inversion Hfree as [|? ? Hitem Hitems]; subst.
  specialize (IH Hitems).
  destruct items as [|next items].
  - cbn [join]. rewrite <- (app_nil_r item).
    change default_ellipsisSuffix with (comma :: lit "...").
    rewrite includes_skip_free by exact Hitem. reflexivity.
  - change (join separator (item :: next :: items))
      with (item ++ separator ++ join separator (next :: items)).
    change default_ellipsisSuffix with (comma :: lit "...") in *.
    rewrite includes_skip_free by exact Hitem.
    exact IH.
Qed.

Lemma trim_subset (c : code_unit) (s : jsstring) : In c (trim s) -> In c s.
Proof.
  intros H.
  destruct (JsStringFacts.trim_decompose s) as (before & after & Hs & _).
  rewrite Hs. apply in_or_app. right. apply in_or_app. left. exact H.
Qed.

(** No valid item contains a comma. *)
Lemma emails_comma_free (recipients : jsstring) :
  Forall (fun item => ~ In comma item) (emails recipients).
Proof.
  rewrite ParsingFacts.emails_pipeline. apply Forall_forall.
  intros item Hin. apply filter_In in Hin as [Hin _].
  apply in_map_iff in Hin as (piece & <- & Hpiece).
  pose proof (JsStringFacts.split_pieces_free comma recipients) as Hfree.
  rewrite Forall_forall in Hfree.
  intros Hcomma. apply (Hfree piece Hpiece). apply trim_subset. exact Hcomma.
Qed.

(** C5, as the code has it. For every ready result the display text is
    the visible items joined by [", "], followed by the suffix marker
    exactly when the hidden count is positive. So the marker occurs in it
    whenever items are hidden; when none is hidden it occurs only if it
    already occurs in the joined visible items, which is never the case
    for the default marker and the items parsed by the hook. *)
Theorem displayText_suffix_marker :
  (forall st suffix,
     st_isReady st = true ->
     let result := render st suffix in
     displayText result
     = join separator (visibleList result)
       ++ (if (0 <? hiddenCount result)%Z then suffix else []) /\
     ((0 < hiddenCount result)%Z -> occurs_in suffix (displayText result)) /\
     (~ occurs_in suffix (join separator (visibleList result)) ->
      (occurs_in suffix (displayText result)
       <-> (0 < hiddenCount result)%Z))) /\
  (forall tm recipients containerRef config,
     ellipsisSuffix config = None ->
     let result := recipientsCalculation tm recipients containerRef config in
     occurs_in default_ellipsisSuffix (displayText result)
     <-> (0 < hiddenCount result)%Z).
Proof.
  assert (Hready : forall st suffix,
     st_isReady st = true ->
     let result := render st suffix in
     displayText result
     = join separator (visibleList result)
       ++ (if (0 <? hiddenCount result)%Z then suffix else []) /\
     ((0 < hiddenCount result)%Z -> occurs_in suffix (displayText result)) /\
     (~ occurs_in suffix (join separator (visibleList result)) ->
      (occurs_in suffix (displayText result)
       <-> (0 < hiddenCount result)%Z))).
  { intros st suffix Hst. unfold render, compose_displayText.
    cbn [displayText visibleList hiddenCount]. rewrite Hst. cbn [negb].
    destruct (Z.ltb_spec 0 (st_hiddenCount st)) as [Hpos|Hzero].
    - repeat split; auto.
      + intros _. apply JsStringFacts.occurs_in_suffix.
      + intros _. apply JsStringFacts.occurs_in_suffix.
    - rewrite app_nil_r. repeat split; auto.
      + intros Hpos. lia.
      + intros Hocc. contradiction.
      + intros Hpos. lia. }
  split; [exact Hready|].
  intros tm recipients containerRef config Hsuffix result.
  subst result. unfold recipientsCalculation. rewrite Hsuffix.
  cbn [or_default].
  set (st := computeVisibleRecipients _ _ _ _ _ _ _).
  destruct (Hready st default_ellipsisSuffix) as (_ & _ & Hiff).
  { apply computeVisibleRecipients_ready. }
  apply Hiff. clear Hiff.
  intros Hocc. apply JsStringFacts.includes_spec in Hocc.
  rewrite join_excludes_default_marker in Hocc; [discriminate|].
  destruct (computeVisibleRecipients_shape tm (emails recipients) containerRef
              (maxWidth config) default_ellipsisSuffix
              (or_default (allowOverflow config) default_allowOverflow)
              (or_default (minWidth config) default_minWidth))
    as (k & _ & Hshape).
  subst st. unfold render. cbn [visibleList]. rewrite Hshape.
  cbn [st_visibleList].
  pose proof (emails_comma_free recipients) as Hfree.
  rewrite <- (firstn_skipn k (emails recipients)) in Hfree.
  apply Forall_app in Hfree as [Hfree _]. exact Hfree.
Qed.

Lemma displayText_suffix_marker_witness :
  occurs_in default_ellipsisSuffix
    (displayText
       (recipientsCalculation
          (useTextMeasurement (monospace_document 5) styled_window)
          three_recipients (Some (container 110)) empty_config))
  /\ displayText
       (render {| st_visibleList := [lit "a@x.com"]; st_hiddenCount := 2;
                  st_isReady := true |} (lit "+"))
     = lit "a@x.com+".
Proof.
  split.
  - apply (proj2 displayText_suffix_marker
             (useTextMeasurement (monospace_document 5) styled_window)
             three_recipients (Some (container 110)) empty_config).
    + reflexivity.
    + reflexivity.
  - apply (proj1 displayText_suffix_marker
             {| st_visibleList := [lit "a@x.com"]; st_hiddenCount := 2;
                st_isReady := true |} (lit "+")).
    reflexivity.
Defined.

(** C5 as stated fails for a marker that occurs in an item: with the
    marker ["."] and nothing hidden, the display text contains it. *)
Lemma marker_without_hidden_items :
  let result :=
    useRecipientsCalculation (monospace_document 5) styled_window
      one_recipient (Some (container 200))
      {| maxWidth := None; ellipsisSuffix := Some (lit ".");
         allowOverflow := None; minWidth := None |} in
  isReady result = true /\
  hiddenCount result = 0%Z /\
  ~ (occurs_in (lit ".") (displayText result)
     <-> (0 < hiddenCount result)%Z).
Proof.
  split; [reflexivity|]. split; [reflexivity|].
  intros [Hhidden _].
  assert (Hocc : occurs_in (lit ".")
            (displayText
               (useRecipientsCalculation (monospace_document 5) styled_window
                  one_recipient (Some (container 200))
                  {| maxWidth := None; ellipsisSuffix := Some (lit ".");
                     allowOverflow := None; minWidth := None |}))).
  { apply JsStringFacts.includes_spec. vm_compute. reflexivity. }
  apply Hhidden in Hocc. vm_compute in Hocc. discriminate.
Qed.

(** *** Throws during the pass *)

(** C8, as the code has it. Once the pass is reached (a valid item, an
    attached container, a width not below the minimum) the evaluation
    always ends ready and no throw leaves it. A throw of the font lookup is
    caught by the engine, which then shows every item and hides none. A
    throw inside a width measurement never reaches the engine: the
    measurement function catches it and answers 0, which the engine uses
    as the measured width; so when the measurement of every trial text
    throws and 0 is at most the available width, every item is shown and
    none is hidden. *)
Theorem fail_open (document : Document) (window : Window)
    (recipients : jsstring) (container : HTMLElement)
    (config : RecipientsCalculationConfig) :
  emails recipients <> [] ->
  lt (effective_width (maxWidth config) container)
     (or_default (minWidth config) default_minWidth) = false ->
  let items := emails recipients in
  let suffix := or_default (ellipsisSuffix config) default_ellipsisSuffix in
  let availableWidth := effective_width (maxWidth config) container in
  let result :=
    useRecipientsCalculation document window recipients (Some container)
      config in
  isReady result = true /\
  (getComputedFont (useTextMeasurement document window) container = Throw ->
   visibleList result = items /\ hiddenCount result = 0%Z) /\
  (forall text font,
     canvas_measure document text font = Throw ->
     measureTextWidth (useTextMeasurement document window) text font
     = Normal (of_Z 0)) /\
  (forall font,
     getComputedFont (useTextMeasurement document window) container
     = Normal font ->
     (forall i, (i < List.length items)%nat ->
        canvas_measure document (trialText items suffix i) font = Throw) ->
     le (of_Z 0) availableWidth = true ->
     visibleList result = items /\ hiddenCount result = 0%Z).
Proof.
  intros Hne Hmin. cbv zeta.
  unfold useRecipientsCalculation, recipientsCalculation, render.
  cbn [isReady visibleList hiddenCount].
  split; [apply computeVisibleRecipients_ready|].
  split; [|split].
  - intros Hfont.
    rewrite (computeVisibleRecipients_catch
               (useTextMeasurement document window) (emails recipients)
               container (maxWidth config) _ _ _ Hne Hmin (or_introl Hfont)).
    split; reflexivity.
  - intros text font Hthrow. rewrite measureTextWidth_total.
    rewrite (measureTextWidth_caught document text font Hthrow). reflexivity.
  - intros font Hfont Hthrows Hzero.
    destruct (fitting_pass_state document window (emails recipients) container
                (maxWidth config)
                (or_default (ellipsisSuffix config) default_ellipsisSuffix)
                (or_default (allowOverflow config) default_allowOverflow)
                (or_default (minWidth config) default_minWidth) font
                Hne Hmin Hfont)
      as (k & Hk & Hstate & _ & Hat).
    rewrite Hstate. cbn [st_visibleList st_hiddenCount].
    destruct (Nat.eq_dec k (List.length (emails recipients))) as [->|Hlt].
    + rewrite firstn_all. split; [reflexivity|lia].
    + assert (Hk' : (k < List.length (emails recipients))%nat) by lia.
      specialize (Hat Hk').
      rewrite (measureTextWidth_caught document _ font (Hthrows k Hk')) in Hat.
      unfold accepts in Hat. rewrite Hzero in Hat. discriminate.
Qed.

Lemma fail_open_witness :
  let result :=
    useRecipientsCalculation canvasless_document styled_window
      three_recipients (Some (container 100)) empty_config in
  visibleList result = emails three_recipients /\ hiddenCount result = 0%Z.
Proof.
  destruct (fail_open canvasless_document styled_window three_recipients
              (container 100) empty_config)
    as (_ & _ & _ & Hall).
  - vm_compute. discriminate.
  - reflexivity.
  - apply (Hall arial_font).
    + reflexivity.
    + intros i _. reflexivity.
    + reflexivity.
Defined.

(** C8 as stated fails for throws of the width measurement. Without
    canvas support and with a negative width override, every measurement
    throws and nothing is shown; with a canvas that throws on the first
    trial text only, the first item is shown and the second is hidden. *)
Lemma raised_measurement_not_all_visible :
  (canvas_measure canvasless_document
     (trialText (emails two_recipients) default_ellipsisSuffix 0) arial_font
   = Throw /\
   let result :=
     useRecipientsCalculation canvasless_document styled_window
       two_recipients (Some (container 100))
       {| maxWidth := Some (of_Z (-1)); ellipsisSuffix := None;
          allowOverflow := Some false; minWidth := Some (of_Z (-2)) |} in
   visibleList result = [] /\ hiddenCount result = 2%Z
   /\ visibleList result <> emails two_recipients) /\
  (canvas_measure (flaky_document (lit "a@x.com,..."))
     (trialText (emails two_recipients) default_ellipsisSuffix 0) arial_font
   = Throw /\
   let result :=
     useRecipientsCalculation (flaky_document (lit "a@x.com,..."))
       styled_window two_recipients (Some (container 100)) empty_config in
   visibleList result = [lit "a@x.com"] /\ hiddenCount result = 1%Z
   /\ visibleList result <> emails two_recipients).
Proof.
  repeat split; try reflexivity; vm_compute; discriminate.
Qed.

End ResultFacts.

(** ** Scenarios *)

Module Scenarios.

Import Examples.

(** Room for the first two items and the marker, not for all three. *)
Example two_of_three_fit :
  useRecipientsCalculation (monospace_document 5) styled_window
    three_recipients (Some (container 110)) empty_config
  = {| visibleList := [lit "a@x.com"; lit "bb@y.com"];
       hiddenCount := 1;
       displayText := lit "a@x.com, bb@y.com,...";
       isReady := true |}.
Proof. reflexivity. Qed.

(** The empty raw string. *)
Example empty_raw_string :
  useRecipientsCalculation (monospace_document 5) styled_window
    [] (Some (container 110)) empty_config
  = {| visibleList := []; hiddenCount := 0; displayText := [];
       isReady := true |}.
Proof. reflexivity. Qed.

(** An override of 0 leaves the container's width in charge. *)
Example zero_override_uses_container :
  useRecipientsCalculation (monospace_document 5) styled_window
    three_recipients (Some (container 110))
    {| maxWidth := Some (of_Z 0); ellipsisSuffix := None;
       allowOverflow := None; minWidth := None |}
  = {| visibleList := [lit "a@x.com"; lit "bb@y.com"];
       hiddenCount := 1;
       displayText := lit "a@x.com, bb@y.com,...";
       isReady := true |}.
Proof. reflexivity. Qed.

(** A throwing style lookup shows everything. *)
Example font_lookup_throws :
  useRecipientsCalculation (monospace_document 5) throwing_window
    three_recipients (Some (container 60)) empty_config
  = {| visibleList := emails three_recipients;
       hiddenCount := 0;
       displayText := lit "a@x.com, bb@y.com, ccc@z.com";
       isReady := true |}.
Proof. reflexivity. Qed.

(** Tokens around the e-mail shape. *)
Example parsing_samples :
  emails (lit " a@b.c ,x@y,@a.b, a b@c.d,a@b..c,a@.b,a@b.,a@@b.c,")
  = [lit "a@b.c"; lit "a@b..c"].
Proof. reflexivity. Qed.

End Scenarios.

(** ** More on parsing *)

Module ParsingMore.

Import JsStringFacts ParsingFacts.

Lemma split_app (sep : code_unit) (a b : jsstring) :
  split sep (a ++ sep :: b) = split sep a ++ split sep b.
Proof.
  induction a as [|c a IH]; simpl.
  - rewrite N.eqb_refl. reflexivity.
  - destruct (c =? sep)%N.
    + rewrite IH. reflexivity.
    + rewrite IH. pose proof (split_not_nil sep a) as Hnn.
      destruct (split sep a); [contradiction|reflexivity].
Qed.

Lemma split_free (sep : code_unit) (s : jsstring) :
  ~ In sep s -> split sep s = [s].
Proof.
  induction s as [|c s IH]; intros Hfree; [reflexivity|]. simpl.
  destruct (N.eqb_spec c sep) as [->|_].
  - exfalso. apply Hfree. left. reflexivity.
  - rewrite IH; [reflexivity|]. intros H. apply Hfree. right. exact H.
Qed.

Lemma split_length (sep : code_unit) (s : jsstring) :
  List.length (split sep s) = S (count_occ N.eq_dec s sep).
Proof.
  induction s as [|c s IH]; [reflexivity|]. simpl.
  destruct (N.eqb_spec c sep) as [->|Hne].
  - destruct (N.eq_dec sep sep); [|contradiction]. simpl. rewrite IH.
    reflexivity.
  - destruct (N.eq_dec c sep); [contradiction|].
    pose proof (split_not_nil sep s) as Hnn.
    destruct (split sep s); [contradiction|]. simpl in *. exact IH.
Qed.

(** The code units of a piece are code units of the string. *)
Lemma split_piece_subset (sep c : code_unit) (s piece : jsstring) :
  In piece (split sep s) -> In c piece -> In c s.
Proof.
  revert piece. induction s as [|d s IH]; intros piece; simpl.
  - intros [<-|[]] [].
  - destruct (d =? sep)%N.
    + intros [<-|Hin] Hc; [destruct Hc|]. right. eapply IH; eassumption.
    + pose proof (split_not_nil sep s) as Hnn.
      destruct (split sep s) as [|p ps]; [contradiction|].
      intros [<-|Hin] Hc.
      * destruct Hc as [->|Hc]; [left; reflexivity|].
        right. apply (IH p); [left; reflexivity|exact Hc].
      * right. apply (IH piece); [right; exact Hin|exact Hc].
Qed.

Lemma drop_while_none (p : code_unit -> bool) (s : jsstring) :
  Forall (fun c => p c = false) s -> drop_while p s = s.
Proof.
  intros H. destruct H as [|c s Hc _]; [reflexivity|].
  simpl. rewrite Hc. reflexivity.
Qed.

(** A string without whitespace is left alone by [trim]. *)
Lemma trim_clean (s : jsstring) :
  Forall (fun c => is_whitespace c = false) s -> trim s = s.
Proof.
  intros H. unfold trim, trimEnd, trimStart.
  rewrite (drop_while_none is_whitespace s H).
  rewrite drop_while_none by (apply Forall_rev; exact H).
  apply rev_involutive.
Qed.

Lemma trim_leading_space (s : jsstring) : trim (space :: s) = trim s.
Proof. reflexivity. Qed.

(** What the shape says about the code units of a valid item. *)
Lemma shape_clean (token : jsstring) :
  email_shape token ->
  Forall (fun c => is_whitespace c = false) token /\
  count_occ N.eq_dec token at_sign = 1%nat /\
  (5 <= List.length token)%nat.
Proof.
  intros (local & domain & tld & -> & Hl & Hd & Ht & Hal & Had & Hat).
  assert (Hws : forall run, Forall plain run ->
                  Forall (fun c => is_whitespace c = false) run).
  { intros run H. eapply Forall_impl; [|exact H]. intros c [Hc _]. exact Hc. }
  assert (Hcount : forall run, Forall plain run ->
                     count_occ N.eq_dec run at_sign = 0%nat).
  { intros run H. apply count_occ_not_In. rewrite Forall_forall in H.
    intros Hin. destruct (H _ Hin) as [_ Hne]. apply Hne. reflexivity. }
  repeat split.
  - repeat (apply Forall_app; split); auto;
      constructor; try constructor; reflexivity.
  - rewrite !count_occ_app. unfold code_unit.
    rewrite (Hcount local Hal), (Hcount domain Had), (Hcount tld Hat).
    rewrite (count_occ_cons_eq N.eq_dec [] (eq_refl at_sign)).
    rewrite (count_occ_cons_neq N.eq_dec [] (x := dot) (y := at_sign))
      by discriminate.
    reflexivity.
  - rewrite !length_app. simpl.
    destruct local; [contradiction|]. destruct domain; [contradiction|].
    destruct tld; [contradiction|]. simpl. lia.
Qed.

Lemma emails_item_facts (recipients item : jsstring) :
  In item (emails recipients) ->
  Forall (fun c => is_whitespace c = false) item /\
  ~ In comma item /\
  count_occ N.eq_dec item at_sign = 1%nat /\
  (5 <= List.length item <= 254)%nat /\
  trim item = item.
Proof.
  intros Hin.
  assert (Hvalid : valid_item item).
  { rewrite emails_pipeline in Hin. apply filter_In in Hin as [_ Hv].
    apply is_valid_email_spec. exact Hv. }
  destruct Hvalid as (_ & Hmax & Hshape).
  destruct (shape_clean item Hshape) as (Hws & Hat & Hmin).
  repeat split; auto.
  - pose proof (ResultFacts.emails_comma_free recipients) as Hfree.
    rewrite Forall_forall in Hfree. exact (Hfree item Hin).
  - apply trim_clean. exact Hws.
Qed.

(** X1. Every parsed item is clean: it has no whitespace and no comma,
    exactly one at sign, between 5 and 254 code units, and trimming it
    again changes nothing. *)
Theorem emails_items_clean (recipients item : jsstring) :
  In item (emails recipients) ->
  Forall (fun c => is_whitespace c = false) item /\
  ~ In comma item /\
  count_occ N.eq_dec item at_sign = 1%nat /\
  (5 <= List.length item <= 254)%nat /\
  trim item = item.
Proof. apply emails_item_facts. Qed.

Lemma emails_items_clean_witness :
  trim (lit "ok@z.com") = lit "ok@z.com".
Proof.
  apply (emails_items_clean (lit "notanemail, ok@z.com") (lit "ok@z.com")).
  left. reflexivity.
Defined.

(** X2. Parsing distributes over a comma: the items of [a,b] are the
    items of [a] followed by the items of [b]. *)
Theorem emails_comma (a b : jsstring) :
  emails (a ++ comma :: b) = emails a ++ emails b.
Proof.
  rewrite !emails_pipeline, split_app, map_app, filter_app. reflexivity.
Qed.

(** X3. A raw string without an at sign has no valid item. *)
Theorem emails_without_at_sign (recipients : jsstring) :
  ~ In at_sign recipients -> emails recipients = [].
Proof.
  intros Hfree.
  destruct (emails recipients) as [|item items] eqn:Hitems; [reflexivity|].
  exfalso. apply Hfree.
  assert (Hin : In item (emails recipients)) by (rewrite Hitems; left; auto).
  rewrite emails_pipeline in Hin. apply filter_In in Hin as [Hin Hv].
  apply in_map_iff in Hin as (piece & <- & Hpiece).
  apply (split_piece_subset comma at_sign recipients piece Hpiece).
  apply ResultFacts.trim_subset.
  apply is_valid_email_spec in Hv as (_ & _ & Hshape).
  destruct Hshape as (local & domain & tld & -> & _).
  apply in_or_app. right. left. reflexivity.
Qed.

Lemma emails_without_at_sign_witness : emails (lit "alice, bob,carol") = [].
Proof.
  apply emails_without_at_sign. vm_compute. intuition discriminate.
Defined.

(** X4. There is at most one item per comma-separated token: the number
    of items is at most the number of commas plus one. *)
Theorem emails_count_bound (recipients : jsstring) :
  (List.length (emails recipients)
   <= S (count_occ N.eq_dec recipients comma))%nat.
Proof.
  rewrite emails_pipeline.
  etransitivity; [apply filter_length_le|].
  rewrite length_map, split_length. lia.
Qed.

Lemma join_separator_tokens (items : list jsstring) :
  items <> [] ->
  Forall (fun item => ~ In comma item) items ->
  List.map trim (split comma (join separator items)) = List.map trim items.
Proof.
  induction items as [|item items IH]; intros Hne Hfree; [contradiction|].
  inversion Hfree as [|? ? Hitem Hitems]; subst.
  destruct items as [|next items].
  - cbn [join]. rewrite split_free by exact Hitem. reflexivity.
  - change (join separator (item :: next :: items))
      with (item ++ comma :: space :: join separator (next :: items)).
    rewrite split_app, split_free by exact Hitem.
    cbn [app List.map]. f_equal.
    specialize (IH ltac:(discriminate) Hitems).
    cbn [split].
    change (space =? comma)%N with false. cbv iota.
    pose proof (split_not_nil comma (join separator (next :: items))) as Hnn.
    destruct (split comma (join separator (next :: items))) as [|p ps];
      [contradiction|].
    cbn [List.map] in *. rewrite trim_leading_space. exact IH.
Qed.

Lemma filter_trimmed_valid (items : list jsstring) :
  (forall x, In x items -> trim x = x /\ is_valid_email x = true) ->
  List.filter is_valid_email (List.map trim items) = items.
Proof.
  induction items as [|x xs IH]; intros Hclean; [reflexivity|].
  cbn [List.map List.filter].
  destruct (Hclean x (or_introl eq_refl)) as [-> ->].
  f_equal. apply IH. intros y Hy. apply Hclean. right. exact Hy.
Qed.

(** X5. Round trip through the display: joining the parsed items with
    [", "] and parsing the text again gives the same items. *)
Theorem emails_join_round_trip (recipients : jsstring) :
  emails (join separator (emails recipients)) = emails recipients.
Proof.
  destruct (emails recipients) as [|item items] eqn:Hitems; [reflexivity|].
  rewrite <- Hitems.
  rewrite emails_pipeline, join_separator_tokens.
  - apply filter_trimmed_valid. intros x Hx. split.
    + apply (emails_item_facts recipients x Hx).
    + rewrite emails_pipeline in Hx. apply filter_In in Hx. apply Hx.
  - rewrite Hitems. discriminate.
  - apply ResultFacts.emails_comma_free.
Qed.

End ParsingMore.

(** ** More on the measurement service *)

Module MeasurementMore.

(** X6. [measureTextWidth] never throws: it answers with the width the
    canvas reports when the canvas works, and with 0 when creating the
    canvas throws, when getting the context throws, when there is no 2D
    context, and when measuring throws. *)
Theorem measureTextWidth_failures (document : Document) (window : Window)
    (text font : jsstring) :
  (exists width,
     measureTextWidth (useTextMeasurement document window) text font
     = Normal width) /\
  (createElement_canvas document = Throw ->
   measureTextWidth_body document text font = of_Z 0) /\
  (forall canvas,
     createElement_canvas document = Normal canvas ->
     (getContext2d canvas = Throw \/ getContext2d canvas = Normal None) ->
     measureTextWidth_body document text font = of_Z 0) /\
  (forall canvas context,
     createElement_canvas document = Normal canvas ->
     getContext2d canvas = Normal (Some context) ->
     measureTextWidth_body document text font
     = match measureText_width context font text with
       | Normal width => width
       | Throw => of_Z 0
       end).
Proof.
  unfold measureTextWidth_body, canvas_measure.
  split; [eexists; reflexivity|].
  split; [intros ->; reflexivity|].
  split.
  - intros canvas -> [H|H]; cbn [bind]; rewrite H; reflexivity.
  - intros canvas context -> H. cbn [bind]. rewrite H. cbn [bind].
    destruct (measureText_width context font text); reflexivity.
Qed.

Lemma measureTextWidth_failures_witness :
  measureTextWidth_body Examples.canvasless_document
    (lit "a@x.com") Examples.arial_font = of_Z 0.
Proof.
  apply (measureTextWidth_failures Examples.canvasless_document
           Examples.styled_window (lit "a@x.com") Examples.arial_font).
  reflexivity.
Defined.

End MeasurementMore.

(** ** More on the fitting pass *)

Module FittingMore.

Import FittingFacts EngineFacts ResultFacts Examples.

(** Once something is shown, the display text is the trial text of the
    last candidate taken. *)
Lemma displayText_is_last_trial (items : list jsstring) (suffix : jsstring)
    (k : nat) :
  (1 <= k <= List.length items)%nat ->
  compose_displayText
    {| st_visibleList := firstn k items;
       st_hiddenCount := (Z.of_nat (List.length items) - Z.of_nat k)%Z;
       st_isReady := true |} suffix
  = trialText items suffix (k - 1).
Proof.
  intros Hk. unfold compose_displayText, trialText.
  cbn [st_isReady st_visibleList st_hiddenCount negb].
  replace (S (k - 1)) with k by lia.
  destruct (Z.ltb_spec 0 (Z.of_nat (List.length items) - Z.of_nat k));
    destruct (Nat.ltb_spec k (List.length items));
    try lia; [reflexivity|symmetry; apply app_nil_r].
Qed.

(** X7. What is displayed fits: when the font is read and the pass is
    reached, the measured width of the display text is at most the
    available width as soon as two items are shown, or one item is shown
    with the overflow escape off. *)
Theorem displayed_text_fits (document : Document) (window : Window)
    (recipients : jsstring) (container : HTMLElement)
    (config : RecipientsCalculationConfig) (font : jsstring) :
  emails recipients <> [] ->
  lt (effective_width (maxWidth config) container)
     (or_default (minWidth config) default_minWidth) = false ->
  getComputedFont (useTextMeasurement document window) container
  = Normal font ->
  let result :=
    useRecipientsCalculation document window recipients (Some container)
      config in
  (2 <= List.length (visibleList result))%nat \/
  (or_default (allowOverflow config) default_allowOverflow = false /\
   visibleList result <> []) ->
  le (measureTextWidth_body document (displayText result) font)
     (effective_width (maxWidth config) container) = true.
Proof.
  intros Hne Hmin Hfont. cbv zeta.
  destruct (fitting_pass_state document window (emails recipients) container
              (maxWidth config)
              (or_default (ellipsisSuffix config) default_ellipsisSuffix)
              (or_default (allowOverflow config) default_allowOverflow)
              (or_default (minWidth config) default_minWidth) font
              Hne Hmin Hfont)
    as (k & Hk & Hstate & Hbefore & _).
  unfold useRecipientsCalculation, recipientsCalculation, render.
  rewrite Hstate. cbn [visibleList displayText st_visibleList].
  rewrite length_firstn, Nat.min_l by exact Hk.
  intros Hshown.
  assert (Hk1 : (1 <= k)%nat).
  { destruct Hshown as [H|[_ H]]; [lia|].
    destruct k; [contradiction H; reflexivity|lia]. }
  rewrite displayText_is_last_trial by lia.
  specialize (Hbefore (k - 1)%nat ltac:(lia)).
  unfold accepts in Hbefore. apply orb_true_iff in Hbefore as [H|H];
    [exact H|].
  apply andb_true_iff in H as [Hzero Hallow].
  apply Nat.eqb_eq in Hzero.
  destruct Hshown as [H2|[Hoff _]]; [lia|congruence].
Qed.

Lemma displayed_text_fits_witness :
  le (measureTextWidth_body (monospace_document 5)
        (lit "a@x.com, bb@y.com,...") arial_font)
     (of_Z 110) = true.
Proof.
  apply (displayed_text_fits (monospace_document 5) styled_window
           three_recipients (container 110) empty_config arial_font).
  - vm_compute. discriminate.
  - reflexivity.
  - reflexivity.
  - left. vm_compute. lia.
Defined.

(** X8. The greedy stop loses nothing when widths grow with the prefix:
    if the trial texts measure in non-decreasing order, no prefix longer
    than the visible one has a trial text that fits. *)
Theorem no_longer_prefix_fits (document : Document) (window : Window)
    (recipients : jsstring) (container : HTMLElement)
    (config : RecipientsCalculationConfig) (font : jsstring) :
  emails recipients <> [] ->
  lt (effective_width (maxWidth config) container)
     (or_default (minWidth config) default_minWidth) = false ->
  getComputedFont (useTextMeasurement document window) container
  = Normal font ->
  let items := emails recipients in
  let suffix := or_default (ellipsisSuffix config) default_ellipsisSuffix in
  let width i :=
    measureTextWidth_body document (trialText items suffix i) font in
  let result :=
    useRecipientsCalculation document window recipients (Some container)
      config in
  (forall i j, (i <= j < List.length items)%nat ->
     le (width i) (width j) = true) ->
  forall j,
    (List.length (visibleList result) <= j < List.length items)%nat ->
    le (width j) (effective_width (maxWidth config) container) = false.
Proof.
  intros Hne Hmin Hfont. cbv zeta.
  destruct (fitting_pass_state document window (emails recipients) container
              (maxWidth config)
              (or_default (ellipsisSuffix config) default_ellipsisSuffix)
              (or_default (allowOverflow config) default_allowOverflow)
              (or_default (minWidth config) default_minWidth) font
              Hne Hmin Hfont)
    as (k & Hk & Hstate & _ & Hat).
  unfold useRecipientsCalculation, recipientsCalculation, render.
  rewrite Hstate. cbn [visibleList st_visibleList].
  rewrite length_firstn, Nat.min_l by exact Hk.
  intros Hmono j Hj.
  specialize (Hat ltac:(lia)). unfold accepts in Hat.
  apply orb_false_iff in Hat as [Hat _].
  destruct (le (measureTextWidth_body document (trialText _ _ j) font) _)
    eqn:Hfit; [|reflexivity].
  rewrite (JsNumberFacts.le_trans _ _ _ (Hmono k j ltac:(lia)) Hfit) in Hat.
  discriminate.
Qed.

Lemma no_longer_prefix_fits_witness :
  le (measureTextWidth_body (monospace_document 5)
        (trialText (emails three_recipients) default_ellipsisSuffix 2)
        arial_font)
     (of_Z 110) = false.
Proof.
  apply (no_longer_prefix_fits (monospace_document 5) styled_window
           three_recipients (container 110) empty_config arial_font).
  - vm_compute. discriminate.
  - reflexivity.
  - reflexivity.
  - intros i j Hij.
    assert (Hj : (j < 3)%nat) by (vm_compute in Hij; lia).
    destruct j as [|[|[|j]]]; [| | |lia];
      destruct i as [|[|[|i]]]; try lia; reflexivity.
  - vm_compute. lia.
Defined.

(** X9. When every trial text fits, every item is shown, nothing is
    hidden and the display text carries no suffix marker. *)
Theorem everything_fits (document : Document) (window : Window)
    (recipients : jsstring) (container : HTMLElement)
    (config : RecipientsCalculationConfig) (font : jsstring) :
  emails recipients <> [] ->
  lt (effective_width (maxWidth config) container)
     (or_default (minWidth config) default_minWidth) = false ->
  getComputedFont (useTextMeasurement document window) container
  = Normal font ->
  (forall i, (i < List.length (emails recipients))%nat ->
     le (measureTextWidth_body document
           (trialText (emails recipients)
              (or_default (ellipsisSuffix config) default_ellipsisSuffix) i)
           font)
        (effective_width (maxWidth config) container) = true) ->
  useRecipientsCalculation document window recipients (Some container) config
  = {| visibleList := emails recipients;
       hiddenCount := 0;
       displayText := join separator (emails recipients);
       isReady := true |}.
Proof.
  intros Hne Hmin Hfont Hfits.
  destruct (fitting_pass_state document window (emails recipients) container
              (maxWidth config)
              (or_default (ellipsisSuffix config) default_ellipsisSuffix)
              (or_default (allowOverflow config) default_allowOverflow)
              (or_default (minWidth config) default_minWidth) font
              Hne Hmin Hfont)
    as (k & Hk & Hstate & _ & Hat).
  unfold useRecipientsCalculation, recipientsCalculation, render.
  rewrite Hstate.
  destruct (Nat.eq_dec k (List.length (emails recipients))) as [->|Hlt].
  - unfold compose_displayText. cbn [st_isReady st_visibleList st_hiddenCount
      negb]. rewrite firstn_all, Z.sub_diag. reflexivity.
  - assert (Hk' : (k < List.length (emails recipients))%nat) by lia.
    specialize (Hat Hk'). unfold accepts in Hat.
    rewrite (Hfits k Hk') in Hat. discriminate.
Qed.

Lemma everything_fits_witness :
  useRecipientsCalculation (monospace_document 5) styled_window
    three_recipients (Some (container 200)) empty_config
  = {| visibleList := emails three_recipients;
       hiddenCount := 0;
       displayText := join separator (emails three_recipients);
       isReady := true |}.
Proof.
  apply (everything_fits (monospace_document 5) styled_window
           three_recipients (container 200) empty_config arial_font).
  - vm_compute. discriminate.
  - reflexivity.
  - reflexivity.
  - intros i Hi.
    assert (Hi' : (i < 3)%nat) by (vm_compute in Hi; lia).
    destruct i as [|[|[|i]]]; [reflexivity|reflexivity|reflexivity|lia].
Defined.

(** X10. With the overflow escape off, a first trial text wider than the
    available width leaves nothing shown: every item is hidden and the
    display text is the suffix marker alone. *)
Theorem nothing_shown_without_escape (document : Document) (window : Window)
    (recipients : jsstring) (container : HTMLElement)
    (config : RecipientsCalculationConfig) (font : jsstring) :
  emails recipients <> [] ->
  lt (effective_width (maxWidth config) container)
     (or_default (minWidth config) default_minWidth) = false ->
  getComputedFont (useTextMeasurement document window) container
  = Normal font ->
  or_default (allowOverflow config) default_allowOverflow = false ->
  le (measureTextWidth_body document
        (trialText (emails recipients)
           (or_default (ellipsisSuffix config) default_ellipsisSuffix) 0)
        font)
     (effective_width (maxWidth config) container) = false ->
  useRecipientsCalculation document window recipients (Some container) config
  = {| visibleList := [];
       hiddenCount := Z.of_nat (List.length (emails recipients));
       displayText :=
         or_default (ellipsisSuffix config) default_ellipsisSuffix;
       isReady := true |}.
Proof.
  intros Hne Hmin Hfont Hoff Hwide.
  destruct (fitting_pass_state document window (emails recipients) container
              (maxWidth config)
              (or_default (ellipsisSuffix config) default_ellipsisSuffix)
              (or_default (allowOverflow config) default_allowOverflow)
              (or_default (minWidth config) default_minWidth) font
              Hne Hmin Hfont)
    as (k & Hk & Hstate & Hbefore & _).
  unfold useRecipientsCalculation, recipientsCalculation, render.
  rewrite Hstate.
  destruct k as [|k].
  - unfold compose_displayText.
    cbn [st_isReady st_visibleList st_hiddenCount negb firstn join app].
    rewrite Z.sub_0_r.
    destruct (emails recipients) as [|item items]; [contradiction|].
    reflexivity.
  - specialize (Hbefore 0%nat ltac:(lia)). unfold accepts in Hbefore.
    rewrite Hwide, Hoff in Hbefore. discriminate.
Qed.

Lemma nothing_shown_without_escape_witness :
  useRecipientsCalculation (monospace_document 100) styled_window
    three_recipients (Some (container 60))
    {| maxWidth := None; ellipsisSuffix := None;
       allowOverflow := Some false; minWidth := None |}
  = {| visibleList := [];
       hiddenCount := 3;
       displayText := lit ",...";
       isReady := true |}.
Proof.
  apply (nothing_shown_without_escape (monospace_document 100) styled_window
           three_recipients (container 60)
           {| maxWidth := None; ellipsisSuffix := None;
              allowOverflow := Some false; minWidth := None |} arial_font).
  - vm_compute. discriminate.
  - reflexivity.
  - reflexivity.
  - reflexivity.
  - reflexivity.
Defined.

(** X11. A truthy width override really overrides: the result does not
    depend on the width of the container, as long as the font lookup
    answers the same. *)
Theorem override_ignores_container (tm : Service) (recipients : jsstring)
    (container1 container2 : HTMLElement) (override : number)
    (suffix : option jsstring) (allow : option bool) (min : option number) :
  truthy override = true ->
  getComputedFont tm container1 = getComputedFont tm container2 ->
  recipientsCalculation tm recipients (Some container1)
    {| maxWidth := Some override; ellipsisSuffix := suffix;
       allowOverflow := allow; minWidth := min |}
  = recipientsCalculation tm recipients (Some container2)
      {| maxWidth := Some override; ellipsisSuffix := suffix;
         allowOverflow := allow; minWidth := min |}.
Proof.
  intros Htruthy Hfont.
  unfold recipientsCalculation, computeVisibleRecipients, effective_width.
  cbn [maxWidth ellipsisSuffix allowOverflow minWidth].
  rewrite Htruthy, Hfont. reflexivity.
Qed.

Lemma override_ignores_container_witness :
  recipientsCalculation
    (useTextMeasurement (monospace_document 5) styled_window)
    three_recipients (Some (container 10))
    {| maxWidth := Some (of_Z 110); ellipsisSuffix := None;
       allowOverflow := None; minWidth := None |}
  = recipientsCalculation
      (useTextMeasurement (monospace_document 5) styled_window)
      three_recipients (Some (container 1000))
      {| maxWidth := Some (of_Z 110); ellipsisSuffix := None;
         allowOverflow := None; minWidth := None |}.
Proof.
  apply (override_ignores_container
           (useTextMeasurement (monospace_document 5) styled_window)
           three_recipients (container 10) (container 1000) (of_Z 110)
           None None None);
    reflexivity.
Defined.

(** X12. The hidden count is never negative and never more than the
    number of valid items, and it is 0 exactly when every valid item is
    visible. *)
Theorem hiddenCount_bounds (tm : Service) (recipients : jsstring)
    (containerRef : option HTMLElement)
    (config : RecipientsCalculationConfig) :
  let result := recipientsCalculation tm recipients containerRef config in
  (0 <= hiddenCount result <= Z.of_nat (List.length (emails recipients)))%Z /\
  (hiddenCount result = 0%Z <-> visibleList result = emails recipients).
Proof.
  unfold recipientsCalculation, render. cbn [hiddenCount visibleList].
  destruct (computeVisibleRecipients_shape tm (emails recipients) containerRef
              (maxWidth config)
              (or_default (ellipsisSuffix config) default_ellipsisSuffix)
              (or_default (allowOverflow config) default_allowOverflow)
              (or_default (minWidth config) default_minWidth))
    as (k & Hk & ->).
  cbn [st_hiddenCount st_visibleList]. split; [lia|]. split.
  - intros H. replace k with (List.length (emails recipients)) by lia.
    apply firstn_all.
  - intros H. apply (f_equal (@List.length jsstring)) in H.
    rewrite length_firstn in H. lia.
Qed.

End FittingMore.

(** ** The cell on top of the hook *)

Module CellFacts.

Import EngineFacts.


(** X14. The tooltip element is drawn exactly when the tooltip is asked
    for and some valid item is not visible; the count reported on showing
    it is then the number of valid items that are not visible. *)
Theorem tooltip_only_when_truncated (tm : Service) (recipients : jsstring)
    (containerRef : option HTMLElement)
    (config : RecipientsCalculationConfig) (showTooltip : bool) :
  let result := recipientsCalculation tm recipients containerRef config in
  (Cell.tooltip_rendered showTooltip result = true <->
   showTooltip = true /\ visibleList result <> emails recipients) /\
  (forall count,
     Cell.onTooltipShow_call showTooltip result = Some count ->
     Cell.tooltip_rendered showTooltip result = true /\
     count = (Z.of_nat (List.length (emails recipients))
              - Z.of_nat (List.length (visibleList result)))%Z).
Proof.
  unfold recipientsCalculation, render, Cell.tooltip_rendered,
    Cell.onTooltipShow_call.
  cbn [hiddenCount visibleList].
  destruct (computeVisibleRecipients_shape tm (emails recipients) containerRef
              (maxWidth config)
              (or_default (ellipsisSuffix config) default_ellipsisSuffix)
              (or_default (allowOverflow config) default_allowOverflow)
              (or_default (minWidth config) default_minWidth))
    as (k & Hk & ->).
  cbn [st_hiddenCount st_visibleList].
  rewrite length_firstn, Nat.min_l by exact Hk.
  assert (Hall : firstn k (emails recipients) = emails recipients
                 <-> k = List.length (emails recipients)).
  { split.
    - intros H. apply (f_equal (@List.length jsstring)) in H.
      rewrite length_firstn in H. lia.
    - intros ->. apply firstn_all. }
  split.
  - rewrite andb_true_iff, Z.ltb_lt, Hall. split.
    + intros [Hshow Hpos]. split; [exact Hshow|lia].
    + intros [Hshow Hne]. split; [exact Hshow|lia].
  - intros count.
    destruct (showTooltip && _)%bool; [|discriminate].
    intros [= <-]. split; reflexivity.
Qed.

Lemma tooltip_only_when_truncated_witness :
  Cell.tooltip_rendered true
    (recipientsCalculation
       (useTextMeasurement (Examples.monospace_document 5)
          Examples.styled_window)
       Examples.three_recipients (Some (Examples.container 110))
       empty_config)
  = true.
Proof.
  apply (proj1 (tooltip_only_when_truncated
                  (useTextMeasurement (Examples.monospace_document 5)
                     Examples.styled_window)
                  Examples.three_recipients (Some (Examples.container 110))
                  empty_config true)).
  split; [reflexivity|]. vm_compute. discriminate.
Defined.

End CellFacts.

(** ** The hover state *)

Module TooltipFacts.

Import Tooltip.

Lemma clearTimeout_keeps (P : timer * bool -> Prop) (handle : timer)
    (timers : Timers) :
  Forall P (pending timers) -> Forall P (pending (clearTimeout handle timers)).
Proof.
  intros H. unfold clearTimeout. cbn [pending].
  apply Forall_forall. intros entry Hin. apply filter_In in Hin as [Hin _].
  rewrite Forall_forall in H. exact (H entry Hin).
Qed.

(** Clearing a recorded handle touches no [isVisible] cell and adds no
    timer. *)
Lemma clear_recorded_keeps (P : timer * bool -> Prop) (handle : option timer)
    (setter : option timer -> TooltipState -> TooltipState)
    (cells : TooltipState) (timers : Timers) :
  (forall value st, isVisible (setter value st) = isVisible st) ->
  Forall P (pending timers) ->
  isVisible (fst (clear_recorded handle setter (cells, timers)))
  = isVisible cells /\
  Forall P (pending (snd (clear_recorded handle setter (cells, timers)))).
Proof.
  intros Hsetter H. destruct handle as [h|]; cbn [clear_recorded fst snd].
  - split; [apply Hsetter|apply clearTimeout_keeps; exact H].
  - split; [reflexivity|exact H].
Qed.

Lemma clear_recorded_empty (handle : option timer)
    (setter : option timer -> TooltipState -> TooltipState)
    (cells : TooltipState) (timers : Timers) :
  (forall value st, isVisible (setter value st) = isVisible st) ->
  pending timers = [] ->
  isVisible (fst (clear_recorded handle setter (cells, timers)))
  = isVisible cells /\
  pending (snd (clear_recorded handle setter (cells, timers))) = [].
Proof.
  intros Hsetter H. destruct handle as [h|]; cbn [clear_recorded fst snd].
  - split; [apply Hsetter|]. unfold clearTimeout. cbn [pending].
    rewrite H. reflexivity.
  - split; [reflexivity|exact H].
Qed.

Lemma setShowTimeout_visible (value : option timer) (st : TooltipState) :
  isVisible (setShowTimeout value st) = isVisible st.
Proof. reflexivity. Qed.

Lemma setHideTimeout_visible (value : option timer) (st : TooltipState) :
  isVisible (setHideTimeout value st) = isVisible st.
Proof. reflexivity. Qed.

Lemma pending_value_In (handle : timer) (entries : list (timer * bool))
    (value : bool) :
  pending_value handle entries = Some value -> In (handle, value) entries.
Proof.
  induction entries as [|[h v] entries IH]; simpl; [discriminate|].
  destruct (Nat.eqb_spec h handle) as [->|_].
  - intros [= ->]. left. reflexivity.
  - intros H. right. exact (IH H).
Qed.

(** The two clears of [showImmediate] and [hideImmediate]. *)
Lemma clear_both_keeps (P : timer * bool -> Prop)
    (handle1 handle2 : option timer) (cells : TooltipState)
    (timers : Timers) :
  Forall P (pending timers) ->
  isVisible
    (fst (clear_recorded handle2 setHideTimeout
            (clear_recorded handle1 setShowTimeout (cells, timers))))
  = isVisible cells /\
  Forall P
    (pending
       (snd (clear_recorded handle2 setHideTimeout
               (clear_recorded handle1 setShowTimeout (cells, timers))))).
Proof.
  intros H.
  destruct (clear_recorded_keeps P handle1 setShowTimeout cells timers
              setShowTimeout_visible H) as [Hv1 Hp1].
  destruct (clear_recorded handle1 setShowTimeout (cells, timers))
    as [cells1 timers1]. cbn [fst snd] in *.
  destruct (clear_recorded_keeps P handle2 setHideTimeout cells1 timers1
              setHideTimeout_visible Hp1) as [Hv2 Hp2].
  split; [congruence|exact Hp2].
Qed.

Lemma clear_both_empty (handle1 handle2 : option timer)
    (cells : TooltipState) (timers : Timers) :
  pending timers = [] ->
  pending
    (snd (clear_recorded handle2 setHideTimeout
            (clear_recorded handle1 setShowTimeout (cells, timers)))) = [].
Proof.
  intros H.
  destruct (clear_recorded_empty handle1 setShowTimeout cells timers
              setShowTimeout_visible H) as [_ Hp1].
  destruct (clear_recorded handle1 setShowTimeout (cells, timers))
    as [cells1 timers1]. cbn [fst snd] in *.
  apply (clear_recorded_empty handle2 setHideTimeout cells1 timers1
           setHideTimeout_visible Hp1).
Qed.

(** Hiding calls, firing timers and renders keep a quiet world quiet; so
    do the showing calls of a disabled hook. *)
Lemma step_quiet (config : TooltipConfig) (w : World) (e : event) :
  quiet w ->
  or_default (disabled config) false = true \/
  (e <> Show /\ e <> ShowImmediate) ->
  quiet (step config w e).
Proof.
  intros (Hren & Hvis & Hpend) Hcase. destruct w as [hook timers].
  cbn [fst snd] in *.
  destruct e as [| | | |handle|]; cbn [step].
  - destruct Hcase as [Hdis|[H _]]; [|contradiction].
    unfold show. rewrite Hdis. repeat split; assumption.
  - unfold hide.
    destruct (clear_recorded_keeps (fun entry => snd entry = false)
                (showTimeout (rendered hook)) setShowTimeout (next hook)
                timers setShowTimeout_visible Hpend) as [Hv Hp].
    destruct (clear_recorded _ setShowTimeout _) as [cells timers1].
    cbn [fst snd] in *.
    destruct (lt _ _); cbn [setTimeout]; repeat split; cbn;
      try exact Hren; try congruence; try exact Hp.
    apply Forall_app. split; [exact Hp|repeat constructor].
  - destruct Hcase as [Hdis|[_ H]]; [|contradiction].
    unfold showImmediate. rewrite Hdis. repeat split; assumption.
  - unfold hideImmediate.
    destruct (clear_both_keeps (fun entry => snd entry = false)
                (showTimeout (rendered hook)) (hideTimeout (rendered hook))
                (next hook) timers Hpend) as [_ Hp].
    destruct (clear_recorded _ setHideTimeout _) as [cells timers1].
    cbn [fst snd] in *. repeat split; cbn; assumption.
  - unfold fire.
    destruct (pending_value handle (pending timers)) as [value|] eqn:Hvalue;
      [|repeat split; assumption].
    apply pending_value_In in Hvalue. rewrite Forall_forall in Hpend.
    pose proof (Hpend _ Hvalue) as Hfalse. cbn in Hfalse. subst value.
    repeat split; cbn [fst snd rendered next setIsVisible isVisible];
      try assumption; try reflexivity.
    apply clearTimeout_keeps. apply Forall_forall. exact Hpend.
  - unfold render_hook. repeat split; cbn; assumption.
Qed.

Lemma run_quiet (config : TooltipConfig) (events : list event) :
  or_default (disabled config) false = true \/
  Forall (fun e => e <> Show /\ e <> ShowImmediate) events ->
  forall w, quiet w -> quiet (run config events w).
Proof.
  intros Hcase. induction events as [|e events IH]; intros w Hw; [exact Hw|].
  cbn [run List.fold_left]. apply IH.
  - destruct Hcase as [Hdis|Hall]; [left; exact Hdis|].
    right. inversion Hall; assumption.
  - apply step_quiet; [exact Hw|].
    destruct Hcase as [Hdis|Hall]; [left; exact Hdis|].
    right. inversion Hall; assumption.
Qed.

(** X15. With delays that are not positive (the defaults), the hook never
    leaves a timer pending, and after any run of calls, with or without
    renders in between, the [isVisible] cell holds what the last show or
    hide call asked for; the next render returns that value. *)
Theorem without_delays_last_call_decides (config : TooltipConfig)
    (events : list event) :
  lt (of_Z 0) (or_default (showDelay config) (of_Z 0)) = false ->
  lt (of_Z 0) (or_default (hideDelay config) (of_Z 0)) = false ->
  pending (snd (run config events initial_world)) = [] /\
  isVisible (next (fst (run config events initial_world)))
  = List.fold_left (requested config) events false /\
  isVisible (rendered (fst (run config (events ++ [Render]) initial_world)))
  = List.fold_left (requested config) events false.
Proof.
  intros Hshow Hhide.
  assert (Hgen : forall w,
            pending (snd w) = [] ->
            pending (snd (run config events w)) = [] /\
            isVisible (next (fst (run config events w)))
            = List.fold_left (requested config) events
                (isVisible (next (fst w)))).
  { unfold run.
    induction events as [|e events IH]; intros w Hw; [split; auto|].
    cbn [List.fold_left].
    assert (Hstep : pending (snd (step config w e)) = [] /\
                    isVisible (next (fst (step config w e)))
                    = requested config (isVisible (next (fst w))) e).
    { destruct w as [hook timers]. cbn [fst snd] in *.
      destruct e as [| | | |handle|]; cbn [step requested].
      - unfold show. destruct (or_default (disabled config) false);
          [split; [exact Hw|reflexivity]|].
        destruct (clear_recorded_empty (hideTimeout (rendered hook))
                    setHideTimeout (next hook) timers
                    setHideTimeout_visible Hw) as [_ Hp].
        destruct (clear_recorded _ setHideTimeout _) as [cells timers1].
        rewrite Hshow. split; [exact Hp|reflexivity].
      - unfold hide.
        destruct (clear_recorded_empty (showTimeout (rendered hook))
                    setShowTimeout (next hook) timers
                    setShowTimeout_visible Hw) as [_ Hp].
        destruct (clear_recorded _ setShowTimeout _) as [cells timers1].
        rewrite Hhide. split; [exact Hp|reflexivity].
      - unfold showImmediate. destruct (or_default (disabled config) false);
          [split; [exact Hw|reflexivity]|].
        pose proof (clear_both_empty (showTimeout (rendered hook))
                      (hideTimeout (rendered hook)) (next hook) timers Hw)
          as Hp.
        destruct (clear_recorded _ setHideTimeout _) as [cells timers1].
        split; [exact Hp|reflexivity].
      - unfold hideImmediate.
        pose proof (clear_both_empty (showTimeout (rendered hook))
                      (hideTimeout (rendered hook)) (next hook) timers Hw)
          as Hp.
        destruct (clear_recorded _ setHideTimeout _) as [cells timers1].
        split; [exact Hp|reflexivity].
      - unfold fire. rewrite Hw. split; [exact Hw|reflexivity].
      - unfold render_hook. split; [exact Hw|reflexivity]. }
    destruct Hstep as [Hpend Hvis].
    destruct (IH (step config w e) Hpend) as [IH1 IH2].
    split; [exact IH1|]. rewrite IH2, Hvis. reflexivity. }
  destruct (Hgen initial_world eq_refl) as [Hpend Hvis].
  split; [exact Hpend|]. split; [exact Hvis|].
  unfold run in *. rewrite fold_left_app. cbn [List.fold_left step].
  destruct (List.fold_left (step config) events initial_world)
    as [hook timers].
  exact Hvis.
Qed.

Lemma without_delays_last_call_decides_witness :
  isVisible
    (next (fst (run default_config [Show; Hide; ShowImmediate; Fire 1%nat]
                  initial_world)))
  = true.
Proof.
  apply (without_delays_last_call_decides default_config
           [Show; Hide; ShowImmediate; Fire 1%nat]);
    reflexivity.
Defined.

(** X16. A disabled hook never shows the tooltip: whatever is called,
    whichever timers fire and whenever it renders, the tooltip is hidden
    in the latest render and in the cells. *)
Theorem disabled_never_visible (config : TooltipConfig)
    (events : list event) :
  or_default (disabled config) false = true ->
  isVisible (rendered (fst (run config events initial_world))) = false /\
  isVisible (next (fst (run config events initial_world))) = false.
Proof.
  intros Hdis.
  destruct (run_quiet config events (or_introl Hdis) initial_world)
    as (Hren & Hvis & _).
  - repeat split; constructor.
  - split; assumption.
Qed.

Lemma disabled_never_visible_witness :
  isVisible
    (next
       (fst (run {| showDelay := Some (of_Z 300); hideDelay := None;
                    disabled := Some true; position := None |}
               [Show; Render; Fire 1%nat; ShowImmediate; Hide]
               initial_world)))
  = false.
Proof.
  apply (disabled_never_visible
           {| showDelay := Some (of_Z 300); hideDelay := None;
              disabled := Some true; position := None |}
           [Show; Render; Fire 1%nat; ShowImmediate; Hide]).
  reflexivity.
Defined.

(** X17. Leaving before the show delay has run out. From a hidden
    tooltip with no pending timer, a [show] with a positive delay, a
    render, and then a [hide] leave the tooltip hidden, and it stays
    hidden through every later timer, render and hiding call: the [hide]
    of the new render sees the recorded show timer and clears it. Without
    a render between the two calls the [hide] at hand still closes over
    no recorded timer: the show timer stays pending and, when it fires,
    the tooltip turns visible. *)
Theorem quick_leave_never_shows :
  (forall config before after,
     lt (of_Z 0) (or_default (showDelay config) (of_Z 0)) = true ->
     isVisible (next (fst (run config before initial_world))) = false ->
     pending (snd (run config before initial_world)) = [] ->
     Forall (fun e => e <> Show /\ e <> ShowImmediate) after ->
     quiet
       (run config (before ++ [Show; Render; Hide] ++ after) initial_world))
  /\
  (forall config,
     lt (of_Z 0) (or_default (showDelay config) (of_Z 0)) = true ->
     or_default (disabled config) false = false ->
     isVisible
       (next (fst (run config [Show; Hide; Fire 1%nat] initial_world)))
     = true).
Proof.
  split.
  - intros config before after Hdelay Hvis Hpend Hafter.
    unfold run. rewrite !fold_left_app.
    fold (run config before initial_world).
    destruct (run config before initial_world) as [hook timers].
    cbn [fst snd] in *.
    apply (run_quiet config after (or_intror Hafter)).
    cbn [List.fold_left step].
    unfold show.
    destruct (or_default (disabled config) false).
    + apply (step_quiet config (render_hook (hook, timers)) Hide);
        [|right; split; discriminate].
      unfold render_hook. repeat split; cbn; try assumption.
      rewrite Hpend. constructor.
    + destruct (clear_recorded_empty (hideTimeout (rendered hook))
                  setHideTimeout (next hook) timers
                  setHideTimeout_visible Hpend) as [Hv Hp].
      destruct (clear_recorded _ setHideTimeout _) as [cells timers1].
      cbn [fst snd] in *.
      rewrite Hdelay. cbn [setTimeout render_hook].
      unfold hide. cbn [rendered next showTimeout setShowTimeout
        clear_recorded fst snd].
      unfold clearTimeout. cbn [pending next_timer]. rewrite Hp.
      cbn [app List.filter fst]. rewrite Nat.eqb_refl. cbn [negb].
      destruct (lt _ (or_default (hideDelay config) _));
        cbn [setTimeout next_timer pending app];
        repeat split; cbn; try congruence; repeat constructor.
  - intros config Hdelay Hdis.
    unfold run, initial_world. cbn [List.fold_left step].
    unfold show. rewrite Hdis, Hdelay.
    cbn [rendered next initial_state hideTimeout clear_recorded setTimeout
      next_timer pending app].
    unfold hide.
    cbn [rendered initial_state showTimeout clear_recorded].
    destruct (lt _ (or_default (hideDelay config) _)); reflexivity.
Qed.

Lemma quick_leave_never_shows_witness :
  quiet
    (run {| showDelay := Some (of_Z 300); hideDelay := Some (of_Z 100);
            disabled := None; position := None |}
       ([] ++ [Show; Render; Hide] ++ [Fire 1%nat; Render; Fire 2%nat])
       initial_world)
  /\ isVisible
       (next
          (fst (run {| showDelay := Some (of_Z 300);
                       hideDelay := Some (of_Z 100);
                       disabled := None; position := None |}
                  [Show; Hide; Fire 1%nat] initial_world)))
     = true.
Proof.
  split.
  - apply (proj1 quick_leave_never_shows
             {| showDelay := Some (of_Z 300); hideDelay := Some (of_Z 100);
                disabled := None; position := None |}
             [] [Fire 1%nat; Render; Fire 2%nat]).
    + reflexivity.
    + reflexivity.
    + reflexivity.
    + repeat constructor; discriminate.
  - apply (proj2 quick_leave_never_shows
             {| showDelay := Some (of_Z 300); hideDelay := Some (of_Z 100);
                disabled := None; position := None |});
      reflexivity.
Defined.

End TooltipFacts.

(** ** The overflow escape across configurations *)

Module EscapeFacts.

Import FittingFacts Examples.

(** Once an item is taken, the overflow flag plays no role. *)
Lemma fit_loop_flag_irrelevant (tm : Service) (total : nat)
    (suffix : jsstring) (allow1 allow2 : bool) (availableWidth : number)
    (font : jsstring) :
  forall rest visible,
    visible <> [] ->
    fit_loop tm total suffix allow1 availableWidth font visible rest
    = fit_loop tm total suffix allow2 availableWidth font visible rest.
Proof.
  induction rest as [|email rest IH]; intros visible Hne; [reflexivity|].
  cbn [fit_loop].
  destruct (measureTextWidth tm _ font) as [width|]; [|reflexivity].
  cbn [bind].
  destruct visible as [|first visible]; [contradiction|].
  cbn [List.length Nat.eqb andb]. rewrite !orb_false_r.
  destruct (le width availableWidth); [|reflexivity].
  apply IH. discriminate.
Qed.

(** X18. Turning the overflow escape on never hides more: with all else
    equal, the visible list with the escape on is at least as long as
    with the escape off. *)
Theorem escape_never_shows_fewer (tm : Service) (recipients : jsstring)
    (containerRef : option HTMLElement) (override : option number)
    (suffix : option jsstring) (min : option number) :
  (List.length
     (visibleList
        (recipientsCalculation tm recipients containerRef
           {| maxWidth := override; ellipsisSuffix := suffix;
              allowOverflow := Some false; minWidth := min |}))
   <= List.length
        (visibleList
           (recipientsCalculation tm recipients containerRef
              {| maxWidth := override; ellipsisSuffix := suffix;
                 allowOverflow := Some true; minWidth := min |})))%nat.
Proof.
  unfold recipientsCalculation, render, computeVisibleRecipients.
  cbn [visibleList maxWidth ellipsisSuffix allowOverflow minWidth or_default].
  destruct containerRef as [container|]; [|simpl; lia].
  destruct (Nat.eqb (List.length (emails recipients)) 0); [simpl; lia|].
  destruct (lt _ _); [simpl; lia|].
  destruct (getComputedFont tm container) as [font|]; cbn [bind];
    [|simpl; lia].
  destruct (emails recipients) as [|first items] eqn:Hitems;
    [cbn; lia|].
  cbn [fit_loop app].
  destruct (measureTextWidth tm _ font) as [width|]; cbn [bind];
    [|cbn; lia].
  cbn [List.length Nat.eqb andb]. rewrite orb_false_r, orb_true_r.
  destruct (le width (effective_width override container)).
  - rewrite (fit_loop_flag_irrelevant tm _ _ false true _ font items [first])
      by discriminate.
    lia.
  - cbn [bind try_catch st_visibleList List.length]. lia.
Qed.

End EscapeFacts.
